(** * AI voice call assistant: call sessions and the response generator

    A shallow embedding of [src/server.js]: the [AIVoiceCallAssistant]
    class ([initializeCall], [generateResponse], [endCall], the two
    loggers) and the three webhook handlers that drive it
    ([/voice/incoming], [/voice/process], [/voice/status]).

    Modelling choices.
    - JavaScript objects are shared by reference.  The [activeCalls] Map
      therefore maps a call id to a _location_ in a heap of session
      objects; [activeCalls.delete] removes the key, not the object.
    - The chat-completion provider is a parameter of the development: it
      is told how many requests were made before and the message list, and
      answers with the text of [choices[0].message.content] or fails.
    - [new Date()] reads a clock kept in the world; [setTimeout] awaited
      through a promise records its delay and moves the clock on.
    - Each handler runs to completion before the next one starts (no
      interleaving at the [await] points). *)

From Equations Require Import Equations.
From stdpp Require Import gmap strings list fin_maps pretty.
From Stdlib Require Import QArith Ascii.


Local Open Scope Z_scope.

(** ** Data model *)

Inductive Role := system | user | assistant.

(** An element of [conversationHistory]. *)
Record Turn := {
  role : Role;
  content : string;
  timestamp : Z
}.

(** An element of the [messages] array sent to the provider. *)
Record ChatMessage := {
  msg_role : Role;
  msg_content : string
}.

Record LanguageProfile := {
  name : string;
  voice : string;
  whisperLang : string
}.

Abbreviation loc := nat (only parsing).

(** The object literal built by [initializeCall]; [endTime] is the
    property [endCall] adds later. *)
Record CallSession := {
  callSid : string;
  fromNumber : string;
  language : string;
  startTime : Z;
  conversationHistory : list Turn;
  audioBuffer : list Z;
  isActive : bool;
  contextWindow : list ChatMessage;
  endTime : option Z
}.

(** The payload of a [call_logs] document. *)
Inductive EventData :=
| CallInitiated (from lang : string) (at_time : Z)
| CallEnded (duration : Z) (messageCount : nat).

Record CallLogDoc := {
  log_callSid : string;
  log_eventType : string;
  log_data : EventData;
  log_timestamp : Z
}.

(** A [conversations] document (the random [sessionId] is left out). *)
Record ConversationDoc := {
  conv_callSid : string;
  conv_userMessage : string;
  conv_aiResponse : string;
  conv_timestamp : Z
}.

Record Database := {
  conversations : list ConversationDoc;
  call_logs : list CallLogDoc
}.

Record World := {
  activeCalls : gmap string loc;
  heap : list CallSession;
  db : option Database;
  now : Z;
  sleeps : list Z;
  requests : list (list ChatMessage)
}.

(** ** Heap and store accessors *)

Definition with_activeCalls (f : gmap string loc → gmap string loc) (w : World) : World :=
  {| activeCalls := f (activeCalls w); heap := heap w; db := db w;
     now := now w; sleeps := sleeps w; requests := requests w |}.

Definition with_heap (f : list CallSession → list CallSession) (w : World) : World :=
  {| activeCalls := activeCalls w; heap := f (heap w); db := db w;
     now := now w; sleeps := sleeps w; requests := requests w |}.

Definition with_db (f : option Database → option Database) (w : World) : World :=
  {| activeCalls := activeCalls w; heap := heap w; db := f (db w);
     now := now w; sleeps := sleeps w; requests := requests w |}.

Definition with_requests (f : list (list ChatMessage) → list (list ChatMessage))
    (w : World) : World :=
  {| activeCalls := activeCalls w; heap := heap w; db := db w;
     now := now w; sleeps := sleeps w; requests := f (requests w) |}.

(** [await new Promise(resolve => setTimeout(resolve, delay))]. *)
Definition setTimeout (delay : Z) (w : World) : World :=
  {| activeCalls := activeCalls w; heap := heap w; db := db w;
     now := now w + delay; sleeps := sleeps w ++ [delay]; requests := requests w |}.

(** In-place update of the object at a location. *)
Definition mutate (l : loc) (f : CallSession → CallSession) (w : World) : World :=
  with_heap (alter f l) w.

(** The session object a call id currently leads to. *)
Definition session_of (w : World) (id : string) : option CallSession :=
  activeCalls w !! id ≫= λ l, heap w !! l.

(** Every reference kept in [activeCalls] points into the heap. *)
Definition wf_world (w : World) : Prop :=
  ∀ id l, activeCalls w !! id = Some l → (l < length (heap w))%nat.

(** ** The language table *)

Definition supportedLanguages : gmap string LanguageProfile :=
  list_to_map
    [ ("en", {| name := "English"; voice := "alloy"; whisperLang := "en" |});
      ("es", {| name := "Spanish"; voice := "nova"; whisperLang := "es" |});
      ("fr", {| name := "French"; voice := "shimmer"; whisperLang := "fr" |});
      ("de", {| name := "German"; voice := "echo"; whisperLang := "de" |});
      ("it", {| name := "Italian"; voice := "fable"; whisperLang := "it" |});
      ("pt", {| name := "Portuguese"; voice := "onyx"; whisperLang := "pt" |}) ].

(** [supportedLanguages] is a plain object, so [supportedLanguages[key]]
    also finds what [Object.prototype] provides: eleven functions and
    the [__proto__] accessor. *)
Definition prototype_functions : list string :=
  [ "constructor"; "__defineGetter__"; "__defineSetter__"; "hasOwnProperty";
    "__lookupGetter__"; "__lookupSetter__"; "isPrototypeOf";
    "propertyIsEnumerable"; "toString"; "valueOf"; "toLocaleString" ].

Inductive PropertyValue :=
| OwnProfile (p : LanguageProfile)
| InheritedFunction (key : string)
| ObjectPrototype
| Undefined.

Definition get_property (key : string) : PropertyValue :=
  match supportedLanguages !! key with
  | Some p => OwnProfile p
  | None =>
      if bool_decide (key ∈ prototype_functions) then InheritedFunction key
      else if bool_decide (key = "__proto__") then ObjectPrototype
      else Undefined
  end.

(** ** Errors and effects *)

Inductive JsError :=
| SessionNotFound    (* new Error('Call session not found') *)
| TypeError          (* property read on undefined *)
| ProviderError.     (* the completion request, or reading its first choice, threw *)

Inductive Outcome (A : Type) :=
| Returned (a : A)
| Thrown (e : JsError).
Arguments Returned {A} a.
Arguments Thrown {A} e.

(** An [async] body: it runs in a world and either returns or throws. *)
Definition Async (A : Type) : Type := World → Outcome A * World.

#[global] Instance Async_ret : MRet Async := λ A a w, (Returned a, w).
#[global] Instance Async_bind : MBind Async := λ A B k m w,
  match m w with
  | (Returned a, w') => k a w'
  | (Thrown e, w') => (Thrown e, w')
  end.

Definition throw {A} (e : JsError) : Async A := λ w, (Thrown e, w).
Definition read {A} (f : World → A) : Async A := λ w, (Returned (f w), w).
Definition update (f : World → World) : Async unit := λ w, (Returned tt, f w).

(** [try { body } catch (error) { }] around a logging call. *)
Definition swallow (body : Async unit) : Async unit := λ w,
  match body w with
  | (Returned _, w') => (Returned tt, w')
  | (Thrown _, w') => (Returned tt, w')
  end.

Definition new_Date : Async Z := read now.

(** ** Session objects *)

Definition push_history (t : Turn) (s : CallSession) : CallSession :=
  {| callSid := callSid s; fromNumber := fromNumber s; language := language s;
     startTime := startTime s;
     conversationHistory := conversationHistory s ++ [t];
     audioBuffer := audioBuffer s; isActive := isActive s;
     contextWindow := contextWindow s; endTime := endTime s |}.

Definition set_isActive (b : bool) (s : CallSession) : CallSession :=
  {| callSid := callSid s; fromNumber := fromNumber s; language := language s;
     startTime := startTime s; conversationHistory := conversationHistory s;
     audioBuffer := audioBuffer s; isActive := b;
     contextWindow := contextWindow s; endTime := endTime s |}.

Definition set_endTime (t : Z) (s : CallSession) : CallSession :=
  {| callSid := callSid s; fromNumber := fromNumber s; language := language s;
     startTime := startTime s; conversationHistory := conversationHistory s;
     audioBuffer := audioBuffer s; isActive := isActive s;
     contextWindow := contextWindow s; endTime := Some t |}.

(** Allocation of a new object: the reference is the next free index. *)
Definition allocate (s : CallSession) : Async loc := λ w,
  (Returned (length (heap w)), with_heap (λ h, h ++ [s]) w).

(** Reading through a reference.  A reference that leads nowhere does not
    exist in JavaScript; see [wf_world] and its preservation lemmas. *)
Definition deref (l : loc) : Async CallSession := λ w,
  match heap w !! l with
  | Some s => (Returned s, w)
  | None => (Thrown TypeError, w)
  end.

(** [activeCalls.get(callSid)]. *)
Definition activeCalls_get (id : string) : Async (option loc) :=
  read (λ w, activeCalls w !! id).

(** ** Logging (best effort)

    Both loggers do nothing without a database.  [insertOne] is taken to
    succeed; were it to throw, the surrounding [try] would swallow it. *)

Definition insert_call_log (doc : CallLogDoc) (d : Database) : Database :=
  {| conversations := conversations d; call_logs := call_logs d ++ [doc] |}.

Definition insert_conversation (doc : ConversationDoc) (d : Database) : Database :=
  {| conversations := conversations d ++ [doc]; call_logs := call_logs d |}.

Definition logCallEvent (callSid eventType : string) (data : EventData) : Async unit :=
  swallow (
    d ← read db;
    match d with
    | None => mret tt
    | Some _ =>
        ts ← new_Date;
        update (with_db (fmap (insert_call_log
          {| log_callSid := callSid; log_eventType := eventType;
             log_data := data; log_timestamp := ts |})))
    end).

Definition logConversation (callSid userMessage aiResponse : string) : Async unit :=
  swallow (
    d ← read db;
    match d with
    | None => mret tt
    | Some _ =>
        ts ← new_Date;
        update (with_db (fmap (insert_conversation
          {| conv_callSid := callSid; conv_userMessage := userMessage;
             conv_aiResponse := aiResponse; conv_timestamp := ts |})))
    end).

(** ** [initializeCall] *)

Definition initializeCall (callSid fromNumber : string) (language : option string)
    : Async loc :=
  let language := default "en" language in
  startTime ← new_Date;
  callSession ← allocate
    {| callSid := callSid; fromNumber := fromNumber; language := language;
       startTime := startTime; conversationHistory := []; audioBuffer := [];
       isActive := true; contextWindow := []; endTime := None |};
  update (with_activeCalls (insert callSid callSession));;
  ts ← new_Date;
  logCallEvent callSid "call_initiated" (CallInitiated fromNumber language ts);;
  mret callSession.

(** ** Language selection in the three adapters *)

(** [this.supportedLanguages[language]?.whisperLang || 'en'] *)
Definition transcribe_language (language : string) : string :=
  match get_property language with
  | OwnProfile p => if bool_decide (whisperLang p = "") then "en" else whisperLang p
  | _ => "en"
  end.

(** [this.supportedLanguages[language]?.voice || 'alloy'] *)
Definition speech_voice (language : string) : string :=
  match get_property language with
  | OwnProfile p => if bool_decide (voice p = "") then "alloy" else voice p
  | _ => "alloy"
  end.

(** Reading [.name] off the looked-up value: a profile has one, a function
    has its own name, [Object.prototype] has none (the template then prints
    [undefined]), and reading it off [undefined] throws ([None]). *)
Definition name_of (v : PropertyValue) : option string :=
  match v with
  | OwnProfile p => Some (name p)
  | InheritedFunction key =>
      Some (if bool_decide (key = "constructor") then "Object" else key)
  | ObjectPrototype => Some "undefined"
  | Undefined => None
  end.

(** [this.supportedLanguages[callSession.language].name] inside the
    template literal: no optional chaining. *)
Definition language_name (language : string) : Async string :=
  match name_of (get_property language) with
  | Some n => mret n
  | None => throw TypeError
  end.

(** ** [generateResponse] *)

Definition newline : string := String (Ascii.ascii_of_nat 10) "".
Definition indent : string := "                    ".

Definition system_prompt (language_name : string) : string :=
  "You are an AI voice assistant speaking in " +:+ language_name +:+ ". " +:+ newline
  +:+ indent +:+ "Keep responses conversational, natural, and under 100 words. " +:+ newline
  +:+ indent +:+ "You're having a phone conversation, so speak as if talking directly to the person." +:+ newline
  +:+ indent +:+ "Be helpful, friendly, and engaging.".

Definition to_message (t : Turn) : ChatMessage :=
  {| msg_role := role t; msg_content := content t |}.

(** [array.slice(-n)]: the last [n] elements, all of them when there are fewer. *)
Definition slice_last {A} (n : nat) (l : list A) : list A :=
  drop (length l - n) l.

Definition build_messages (language_name : string) (history : list Turn)
    : list ChatMessage :=
  {| msg_role := system; msg_content := system_prompt language_name |}
  :: map to_message (slice_last 10 history).

Definition user_turn (text : string) (t : Z) : Turn :=
  {| role := user; content := text; timestamp := t |}.

Definition assistant_turn (text : string) (t : Z) : Turn :=
  {| role := assistant; content := text; timestamp := t |}.

Definition apology : string :=
  "I'm sorry, I'm having trouble processing your request right now. Could you please try again?".

Section Assistant.

(** The provider: the number of earlier requests and the message list
    decide whether [choices[0].message.content] is obtained. *)
Variable chat_create : nat → list ChatMessage → option string.

Definition chat_completions_create (messages : list ChatMessage) : Async string := λ w,
  let w' := with_requests (λ r, r ++ [messages]) w in
  match chat_create (length (requests w)) messages with
  | Some text => (Returned text, w')
  | None => (Thrown ProviderError, w')
  end.

(** The body of the [try] block. *)
Definition generateResponse_try (callSid userMessage : string) : Async string :=
  callSession ← activeCalls_get callSid;
  match callSession with
  | None => throw SessionNotFound
  | Some l =>
      ts ← new_Date;
      update (mutate l (push_history (user_turn userMessage ts)));;
      s ← deref l;
      lang ← language_name (language s);
      let messages := build_messages lang (conversationHistory s) in
      aiResponse ← chat_completions_create messages;
      ts ← new_Date;
      update (mutate l (push_history (assistant_turn aiResponse ts)));;
      logConversation callSid userMessage aiResponse;;
      mret aiResponse
  end.

(** The whole method: the [catch] block retries while [retryCount < 3]. *)
Equations? generateResponse (callSid userMessage : string) (retryCount : nat)
    (w : World) : Outcome string * World by wf (3 - retryCount)%nat lt :=
  generateResponse callSid userMessage retryCount w
    with generateResponse_try callSid userMessage w => {
    | (Returned aiResponse, w1) := (Returned aiResponse, w1);
    | (Thrown error, w1) with decide (retryCount < 3)%nat => {
        | left _ :=
            let delay := 2 ^ Z.of_nat retryCount * 1000 in
            generateResponse callSid userMessage (retryCount + 1)
              (setTimeout delay w1);
        | right _ := (Returned apology, w1) } }.
Proof. lia. Qed.

(** ** [endCall] *)

Definition endCall (callSid : string) : Async unit :=
  callSession ← activeCalls_get callSid;
  match callSession with
  | Some l =>
      update (mutate l (set_isActive false));;
      t ← new_Date;
      update (mutate l (set_endTime t));;
      s ← deref l;
      logCallEvent callSid "call_ended"
        (CallEnded (default 0 (endTime s) - startTime s)
                   (length (conversationHistory s)));;
      update (with_activeCalls (delete callSid))
  | None => mret tt
  end.

End Assistant.

(** ** Webhook handlers *)

(** The value of [req.body.Confidence] as the comparison [confidence < 0.5]
    sees it: missing, not a number, or a number. *)
Inductive JsConfidence :=
| ConfidenceMissing
| ConfidenceNaN
| ConfidenceNumber (q : Q).

(** [confidence < 0.5]; comparisons with [undefined] and [NaN] are false. *)
Definition below_threshold (c : JsConfidence) : bool :=
  match c with
  | ConfidenceNumber q => negb (Qle_bool (1 # 2) q)
  | _ => false
  end.

Record Body := {
  CallSid : option string;
  From : option string;
  SpeechResult : option string;
  Confidence : JsConfidence;
  CallStatus : option string
}.

(** [!value] for a field that is a string or missing. *)
Definition falsy (value : option string) : bool :=
  match value with
  | None => true
  | Some s => bool_decide (s = "")
  end.

Inductive Response :=
| Status400 (text : string)
| Status200
| Greeting
| PleaseRepeat
| Reply (aiResponse : string)
| TechnicalDifficulties
| Unanswered.

(** What the caller hears first: the text of the first [<Say>] of the
    TwiML, white space collapsed. *)
Definition first_say (r : Response) : option string :=
  match r with
  | Greeting => Some "Hello! You've reached the AI Voice Assistant. I can help you with questions and have a conversation. Please speak after the tone."
  | PleaseRepeat => Some "I didn't quite catch that. Could you please repeat?"
  | Reply aiResponse => Some aiResponse
  | TechnicalDifficulties => Some "I'm sorry, I'm having technical difficulties. Please try calling again later."
  | Status400 _ | Status200 | Unanswered => None
  end.

(** An [async] handler without a [try]: were its body to throw, nothing
    would be sent. *)
Definition async_route (body : Async Response) : World → Response * World := λ w,
  match body w with
  | (Returned r, w') => (r, w')
  | (Thrown _, w') => (Unanswered, w')
  end.

(** [try { body } catch (error) { handler }] in a route. *)
Definition try_catch {A} (body : Async A) (handler : A) : World → A * World := λ w,
  match body w with
  | (Returned a, w') => (a, w')
  | (Thrown _, w') => (handler, w')
  end.

Section Routes.

Variable chat_create : nat → list ChatMessage → option string.

Definition voice_incoming (req : option Body) : World → Response * World :=
  match req with
  | None => λ w, (Status400 "Bad Request: No body", w)
  | Some body =>
      if falsy (CallSid body) || falsy (From body)
      then λ w, (Status400 "Bad Request: Missing CallSid or From", w)
      else
        async_route
          (initializeCall (default "" (CallSid body)) (default "" (From body)) None;;
           mret Greeting)
  end.

Definition voice_process (req : option Body) : World → Response * World :=
  match req with
  | None => λ w, (Status400 "Bad Request: No body", w)
  | Some body =>
      if falsy (CallSid body)
      then λ w, (Status400 "Bad Request: Missing CallSid", w)
      else
        try_catch
          (if falsy (SpeechResult body) || below_threshold (Confidence body)
           then mret PleaseRepeat
           else
             aiResponse ← generateResponse chat_create
               (default "" (CallSid body)) (default "" (SpeechResult body)) 0;
             mret (Reply aiResponse))
          TechnicalDifficulties
  end.

Definition ends_call (status : option string) : bool :=
  bool_decide (status = Some "completed") || bool_decide (status = Some "failed")
  || bool_decide (status = Some "busy") || bool_decide (status = Some "no-answer").

Definition voice_status (req : option Body) : World → Response * World :=
  match req with
  | None => λ w, (Status400 "Bad Request: No body", w)
  | Some body =>
      if falsy (CallSid body)
      then λ w, (Status400 "Bad Request: Missing CallSid", w)
      else
        async_route
          ((if ends_call (CallStatus body)
            then endCall (default "" (CallSid body))
            else mret tt);;
           mret Status200)
  end.

End Routes.


(** ** Worlds reached inside one attempt *)

(** After the user message has been pushed. *)
Definition after_user (l : loc) (userMessage : string) (w : World) : World :=
  mutate l (push_history (user_turn userMessage (now w))) w.

(** After the request has been handed to the provider. *)
Definition after_request (messages : list ChatMessage) (w : World) : World :=
  with_requests (λ r, r ++ [messages]) w.

(** After the answer has been pushed and logged. *)
Definition after_answer (l : loc) (callSid userMessage aiResponse : string)
    (w : World) : World :=
  snd (logConversation callSid userMessage aiResponse
         (mutate l (push_history (assistant_turn aiResponse (now w))) w)).

(** A session whose history has grown by [turns]. *)
Definition extend_history (turns : list Turn) (s : CallSession) : CallSession :=
  {| callSid := callSid s; fromNumber := fromNumber s; language := language s;
     startTime := startTime s;
     conversationHistory := conversationHistory s ++ turns;
     audioBuffer := audioBuffer s; isActive := isActive s;
     contextWindow := contextWindow s; endTime := endTime s |}.

(** The user turns pushed by [n] failing attempts, the first of them
    numbered [k] and made at time [t]. *)
Fixpoint retry_turns (userMessage : string) (n k : nat) (t : Z) : list Turn :=
  match n with
  | O => []
  | S n' =>
      user_turn userMessage t
      :: retry_turns userMessage n' (k + 1) (t + 2 ^ Z.of_nat k * 1000)
  end.

(** The delays of the three retries, in milliseconds. *)
Definition backoff : list Z := [1000; 2000; 4000].

(** ** Scripted providers and worlds for the examples *)

Definition empty_world : World :=
  {| activeCalls := ∅; heap := []; db := None; now := 0; sleeps := []; requests := [] |}.

Definition always_fail : nat → list ChatMessage → option string := λ _ _, None.

(** Fails [k] times, then answers [text]. *)
Definition fail_then (k : nat) (text : string) : nat → list ChatMessage → option string :=
  λ n _, if (n <? k)%nat then None else Some text.

(** One call, just initialised by the incoming-call webhook. *)
Definition one_call : World :=
  snd (initializeCall "CA1" "+15551234567" None empty_world).

Definition new_session : CallSession :=
  {| callSid := "CA1"; fromNumber := "+15551234567"; language := "en";
     startTime := 0; conversationHistory := []; audioBuffer := [];
     isActive := true; contextWindow := []; endTime := None |}.

(** The same call after one answered turn. *)
Definition one_turn : World :=
  snd (generateResponse (fail_then 0 "Sunny.") "CA1" "What's the weather?" 0 one_call).

(** A call created with a language code outside the table. *)
Definition klingon_call : World :=
  snd (initializeCall "CA1" "+15551234567" (Some "tlh") empty_world).

(** A call with fifteen turns already in its history. *)
Definition fifteen_turns : list Turn :=
  (λ i, {| role := if Nat.even i then user else assistant;
           content := "turn"; timestamp := Z.of_nat i |}) <$> seq 0 15.

Definition long_session : CallSession :=
  {| callSid := "CA1"; fromNumber := "+15551234567"; language := "en";
     startTime := 0; conversationHistory := fifteen_turns; audioBuffer := [];
     isActive := true; contextWindow := []; endTime := None |}.

Definition long_call : World :=
  {| activeCalls := {[ "CA1" := 0%nat ]}; heap := [long_session]; db := None;
     now := 15; sleeps := []; requests := [] |}.

Definition speech (callSid text : string) (confidence : JsConfidence) : Body :=
  {| CallSid := Some callSid; From := None; SpeechResult := Some text;
     Confidence := confidence; CallStatus := None |}.

(** ** The store invariant

    Every id of the store leads to a session object that carries that id,
    is active and has no end time. *)
Definition store_inv (w : World) : Prop :=
  ∀ id l, activeCalls w !! id = Some l →
    ∃ s, heap w !! l = Some s
         ∧ callSid s = id ∧ isActive s = true ∧ endTime s = None.

Definition finished : list string := ["completed"; "failed"; "busy"; "no-answer"].

(** ** The check of the environment variables *)

Definition requiredEnvVars : list string :=
  [ "TWILIO_SID"; "TWILIO_TOKEN"; "TWILIO_NUMBER"; "OPENAI_API_KEY" ].




(** ** The health report *)

Record Health := {
  health_mongodb : string;
  health_activeCalls : nat;
  health_supportedLanguages : nat
}.

(** [GET /health], without the clock and the constant service names. *)
Definition health (w : World) : Health :=
  {| health_mongodb := if db w is Some _ then "connected" else "disconnected";
     health_activeCalls := size (activeCalls w);
     health_supportedLanguages := size supportedLanguages |}.

(** ** Outbound calls: [POST /api/call] *)

Record CallRequest := {
  phoneNumber : option string;
  requested_language : option string;
  webhookUrl : option string;
  protocol : string;
  host : option string
}.

(** The argument of [twilioClient.calls.create]. *)
Record TwilioCall := {
  call_to : string;
  call_from : string;
  call_url : string;
  call_statusCallback : string;
  call_statusCallbackMethod : string
}.

Inductive ApiResponse :=
| PhoneNumberRequired                  (* 400 *)
| WebhookUrlRequired                   (* 400 *)
| CallInitiatedOk (sid status webhook : string)
| CallFailed (details : string).       (* 500 *)

(** [a || b] on strings that may be missing. *)
Definition or_else (a b : option string) : option string :=
  if falsy a then b else a.

(** [haystack.includes(needle)]. *)
Definition includes (needle haystack : string) : bool :=
  if String.index 0 needle haystack is Some _ then true else false.

(** [webhookUrl || process.env.NGROK_URL || `${req.protocol}://${req.get('host')}`] *)
Definition baseUrl (ngrok_url : option string) (req : CallRequest) : string :=
  default (protocol req +:+ "://" +:+ default "undefined" (host req))
          (or_else (or_else (webhookUrl req) ngrok_url)
                   (Some (protocol req +:+ "://" +:+ default "undefined" (host req)))).

Section Outbound.

(** The telephony provider: it accepts the call, giving its id and status,
    or refuses with a message. *)
Variable calls_create : TwilioCall → string * string + string.
Variable TWILIO_NUMBER : string.
Variable NGROK_URL : option string.

(** The handler, with the list of calls handed to the provider so far. *)
Definition api_call (req : CallRequest) (placed : list TwilioCall)
    : ApiResponse * list TwilioCall :=
  if falsy (phoneNumber req) then (PhoneNumberRequired, placed)
  else
    let base := baseUrl NGROK_URL req in
    if includes "localhost" base && falsy (webhookUrl req)
    then (WebhookUrlRequired, placed)
    else
      let call :=
        {| call_to := default "" (phoneNumber req);
           call_from := TWILIO_NUMBER;
           call_url := base +:+ "/voice/incoming";
           call_statusCallback := base +:+ "/voice/status";
           call_statusCallbackMethod := "POST" |} in
      match calls_create call with
      | inl (sid, status) => (CallInitiatedOk sid status base, placed ++ [call])
      | inr message => (CallFailed message, placed ++ [call])
      end.

End Outbound.

(** ** The speech adapters and their files

    Paths are relative to the directory of the server and always have a
    directory part.  Of the ways a file operation can fail, those that
    depend on what is on the disk are modelled: a missing parent
    directory, a directory where a file is expected and the reverse.
    [path.join] is concatenation with [/]; its clean-up of [.] and [..]
    segments is not modelled. *)

Record Disk := {
  dirs : gset string;
  files : gmap string (list Z)
}.

(** A block of file operations: [None] when one of them threw. *)
Definition DiskOp (A : Type) : Type := Disk → option A * Disk.

#[global] Instance DiskOp_ret : MRet DiskOp := λ A a d, (Some a, d).
#[global] Instance DiskOp_bind : MBind DiskOp := λ A B k m d,
  match m d with
  | (Some a, d') => k a d'
  | (None, d') => (None, d')
  end.

Definition path_join (dir file : string) : string := dir +:+ "/" +:+ file.

Definition existsSync (path : string) : DiskOp bool := λ d,
  (Some (bool_decide (path ∈ dirs d) || bool_decide (is_Some (files d !! path))), d).

(** [fs.mkdirSync(path)] for a directory directly under the server's. *)
Definition mkdirSync (path : string) : DiskOp unit := λ d,
  if bool_decide (path ∈ dirs d) || bool_decide (is_Some (files d !! path))
  then (None, d)
  else (Some tt, {| dirs := {[ path ]} ∪ dirs d; files := files d |}).

(** [fs.mkdirSync(path, { recursive: true })], given the path and its
    ancestors: existing directories are accepted, a file in the way throws. *)
Definition mkdirSync_recursive (paths : list string) : DiskOp unit := λ d,
  if bool_decide (Exists (λ p, is_Some (files d !! p)) paths)
  then (None, d)
  else (Some tt, {| dirs := list_to_set paths ∪ dirs d; files := files d |}).

(** Does the string contain a [/]? *)
Fixpoint has_slash (s : string) : bool :=
  match s with
  | EmptyString => false
  | String a rest => bool_decide (a = "/"%char) || has_slash rest
  end.

(** The directory part of a path: what precedes its last [/]. *)
Fixpoint dirname (path : string) : string :=
  match path with
  | EmptyString => EmptyString
  | String a rest => if has_slash rest then String a (dirname rest) else EmptyString
  end.

(** [fs.writeFileSync(path, data)]: the directory part of the path must be
    a directory, and the path itself must not be one. *)
Definition writeFileSync (path : string) (data : list Z) : DiskOp unit := λ d,
  if bool_decide (dirname path ∈ dirs d) && negb (bool_decide (path ∈ dirs d))
  then (Some tt, {| dirs := dirs d; files := <[path := data]> (files d) |})
  else (None, d).

Definition unlinkSync (path : string) : DiskOp unit := λ d,
  if bool_decide (is_Some (files d !! path))
  then (Some tt, {| dirs := dirs d; files := delete path (files d) |})
  else (None, d).

(** What a stream opened on the path delivers. *)
Definition read_stream (path : string) : DiskOp (list Z) := λ d,
  (files d !! path, d).

(** Awaiting a provider: its answer, or a rejection. *)
Definition await {A} (answer : option A) : DiskOp A := λ d, (answer, d).

(** [try { body } catch (error) { return null; }] *)
Definition or_null {A} (body : DiskOp A) : Disk → option A * Disk := λ d,
  match body d with
  | (Some a, d') => (Some a, d')
  | (None, d') => (None, d')
  end.

Section Adapters.

(** Speech recognition: audio and language code to text. *)
Variable transcriptions_create : list Z → string → option string.
(** Speech synthesis: voice and text to audio. *)
Variable speech_create : string → string → option (list Z).

Definition transcribeAudio (audioBuffer : list Z) (language : option string)
    (Date_now : Z) : Disk → option string * Disk :=
  let name := "audio_" +:+ pretty Date_now +:+ ".wav" in
  let tempFile := path_join "temp" name in
  or_null (
    present ← existsSync "temp";
    (if present : bool then mret tt else mkdirSync "temp");;
    writeFileSync tempFile audioBuffer;;
    audio ← read_stream tempFile;
    transcription ← await (transcriptions_create audio
                             (transcribe_language (default "en" language)));
    unlinkSync tempFile;;
    mret transcription).

Definition generateSpeech (text : string) (language : option string)
    (callSid : string) (Date_now : Z) : Disk → option (list Z) * Disk :=
  let voice := speech_voice (default "en" language) in
  let filename := "call_" +:+ callSid +:+ "_" +:+ pretty Date_now +:+ ".mp3" in
  let audioPath := path_join "public/call_audio" filename in
  or_null (
    audioBuffer ← await (speech_create voice text);
    present ← existsSync "public/call_audio";
    (if present : bool then mret tt
     else mkdirSync_recursive ["public"; "public/call_audio"]);;
    writeFileSync audioPath audioBuffer;;
    mret audioBuffer).

End Adapters.

(** An empty disk, one with the temporary directory, and fixed adapters. *)
Definition empty_disk : Disk := {| dirs := ∅; files := ∅ |}.

Definition hears (text : string) : list Z → string → option string :=
  λ _ _, Some text.
Definition deaf : list Z → string → option string := λ _ _, None.
Definition speaks (audio : list Z) : string → string → option (list Z) :=
  λ _ _, Some audio.

(** A fixed telephony provider and an outbound request. *)
Definition accepts : TwilioCall → string * string + string :=
  λ _, inl ("CA7", "queued").

Definition dial (number : string) (hook : option string) : CallRequest :=
  {| phoneNumber := Some number; requested_language := None; webhookUrl := hook;
     protocol := "http"; host := Some "localhost:3000" |}.

(** An environment with everything set. *)
Definition full_env : string → option string := λ key,
  if bool_decide (key ∈ "MONGO_URI" :: requiredEnvVars) then Some "set" else None.

(** A status callback and an incoming-call request. *)
Definition status (callSid state : string) : Body :=
  {| CallSid := Some callSid; From := None; SpeechResult := None;
     Confidence := ConfidenceMissing; CallStatus := Some state |}.

Definition incoming (callSid from : string) : Body :=
  {| CallSid := Some callSid; From := Some from; SpeechResult := None;
     Confidence := ConfidenceMissing; CallStatus := None |}.

Definition klingon_session : CallSession :=
  {| callSid := "CA1"; fromNumber := "+15551234567"; language := "tlh";
     startTime := 0; conversationHistory := []; audioBuffer := [];
     isActive := true; contextWindow := []; endTime := None |}.

(** Two calls, the first of them with an answered turn. *)
Definition two_calls : World :=
  snd (initializeCall "CA2" "+15557654321" None one_turn).

(** A request that carries every field the three webhooks read. *)
Definition full_request (callSid : string) : Body :=
  {| CallSid := Some callSid; From := Some "+15551234567";
     SpeechResult := Some "And tomorrow?"; Confidence := ConfidenceNumber (9 # 10);
     CallStatus := Some "completed" |}.

(** One call on a server that logs to a database. *)
Definition logged_call : World :=
  snd (initializeCall "CA1" "+15551234567" None
         {| activeCalls := ∅; heap := []; db := Some {| conversations := []; call_logs := [] |};
            now := 0; sleeps := []; requests := [] |}).

(** * Properties *)

Ltac run := unfold mbind, Async_bind, mret, Async_ret, read, update, throw,
  activeCalls_get, new_Date, deref, swallow; simpl.

Lemma swallow_returns body w : swallow body w = (Returned tt, snd (body w)).
Proof. unfold swallow. destruct (body w) as [[[]|e] w']; reflexivity. Qed.

Lemma logConversation_returns c m a w :
  logConversation c m a w = (Returned tt, snd (logConversation c m a w)).
Proof. unfold logConversation. rewrite swallow_returns at 1. by rewrite swallow_returns. Qed.

Lemma logCallEvent_returns c e d w :
  logCallEvent c e d w = (Returned tt, snd (logCallEvent c e d w)).
Proof. unfold logCallEvent. rewrite swallow_returns at 1. by rewrite swallow_returns. Qed.

Lemma alter_as_insert {A} (f : A → A) (l : list A) i x :
  l !! i = Some x → alter f i l = <[i := f x]> l.
Proof.
  revert i. induction l as [|a l IH]; intros [|i] H; simplify_eq/=; try done.
  f_equal. by apply IH.
Qed.

Lemma push_extend t ts s :
  push_history t (extend_history ts s) = extend_history (ts ++ [t]) s.
Proof. unfold push_history, extend_history. simpl. by rewrite app_assoc. Qed.

Lemma push_as_extend t s : push_history t s = extend_history [t] s.
Proof. reflexivity. Qed.

Lemma extend_extend ts1 ts2 s :
  extend_history ts2 (extend_history ts1 s) = extend_history (ts1 ++ ts2) s.
Proof. unfold extend_history. simpl. by rewrite app_assoc. Qed.

Lemma session_of_Some w c s :
  session_of w c = Some s ↔ ∃ l, activeCalls w !! c = Some l ∧ heap w !! l = Some s.
Proof.
  unfold session_of. destruct (activeCalls w !! c) as [l|]; simpl; split.
  - eauto.
  - by intros (l' & [= <-] & ?).
  - done.
  - by intros (l' & ? & ?).
Qed.

Lemma logConversation_frame c m a w :
  let w' := snd (logConversation c m a w) in
  activeCalls w' = activeCalls w ∧ heap w' = heap w ∧ now w' = now w
  ∧ sleeps w' = sleeps w ∧ requests w' = requests w.
Proof. unfold logConversation. run. by destruct (db w). Qed.

Lemma logCallEvent_frame c e d w :
  let w' := snd (logCallEvent c e d w) in
  activeCalls w' = activeCalls w ∧ heap w' = heap w ∧ now w' = now w
  ∧ sleeps w' = sleeps w ∧ requests w' = requests w.
Proof. unfold logCallEvent. run. by destruct (db w). Qed.

Lemma backoff_at k :
  (k < 3)%nat → drop k backoff = (2 ^ Z.of_nat k * 1000) :: drop (k + 1) backoff.
Proof. intros H. destruct k as [|[|[|k]]]; try reflexivity. lia. Qed.

Lemma retry_turns_four m t :
  retry_turns m 4 0 t =
  [user_turn m t; user_turn m (t + 1000); user_turn m (t + 3000);
   user_turn m (t + 7000)].
Proof.
  unfold retry_turns. simpl Nat.add.
  change (2 ^ Z.of_nat 0 * 1000) with 1000.
  change (2 ^ Z.of_nat 1 * 1000) with 2000.
  change (2 ^ Z.of_nat 2 * 1000) with 4000.
  replace (t + 1000 + 2000 + 4000) with (t + 7000) by lia.
  replace (t + 1000 + 2000) with (t + 3000) by lia.
  reflexivity.
Qed.

Section Attempt.

Variable chat_create : nat → list ChatMessage → option string.

Lemma generateResponse_step c m k w :
  generateResponse chat_create c m k w =
  match generateResponse_try chat_create c m w with
  | (Returned r, w1) => (Returned r, w1)
  | (Thrown _, w1) =>
      if decide (k < 3)%nat
      then generateResponse chat_create c m (k + 1)
             (setTimeout (2 ^ Z.of_nat k * 1000) w1)
      else (Returned apology, w1)
  end.
Proof.
  simp generateResponse.
  destruct (generateResponse_try chat_create c m w) as [[r|e] w1]; simpl.
  - reflexivity.
  - destruct (decide (k < 3)%nat); reflexivity.
Qed.

Lemma try_absent c m w :
  activeCalls w !! c = None →
  generateResponse_try chat_create c m w = (Thrown SessionNotFound, w).
Proof. intros H. unfold generateResponse_try. run. rewrite H. reflexivity. Qed.

Lemma try_present c m w l s :
  activeCalls w !! c = Some l →
  heap w !! l = Some s →
  generateResponse_try chat_create c m w =
  let w1 := after_user l m w in
  match name_of (get_property (language s)) with
  | None => (Thrown TypeError, w1)
  | Some n =>
      let messages :=
        build_messages n (conversationHistory s ++ [user_turn m (now w)]) in
      match chat_create (length (requests w)) messages with
      | None => (Thrown ProviderError, after_request messages w1)
      | Some aiResponse =>
          (Returned aiResponse,
           after_answer l c m aiResponse (after_request messages w1))
      end
  end.
Proof.
  intros Hc Hl. unfold generateResponse_try. run. rewrite Hc. simpl.
  rewrite list_lookup_alter_eq, Hl. simpl.
  unfold language_name. simpl.
  destruct (name_of (get_property (language s))) as [n|]; [|reflexivity].
  run. unfold chat_completions_create. simpl.
  destruct (chat_create _ _) as [a|]; [|reflexivity].
  rewrite logConversation_returns. reflexivity.
Qed.

(** A failing attempt leaves the user message behind and nothing else. *)
Lemma try_fails c m w l s :
  activeCalls w !! c = Some l →
  heap w !! l = Some s →
  (∀ msgs, chat_create (length (requests w)) msgs = None) →
  ∃ e w1, generateResponse_try chat_create c m w = (Thrown e, w1)
    ∧ activeCalls w1 = activeCalls w
    ∧ heap w1 = <[l := push_history (user_turn m (now w)) s]> (heap w)
    ∧ db w1 = db w ∧ now w1 = now w ∧ sleeps w1 = sleeps w
    ∧ (length (requests w) ≤ length (requests w1) ≤ length (requests w) + 1)%nat.
Proof.
  intros Hc Hl Hfail. rewrite (try_present c m w l s Hc Hl). simpl.
  destruct (name_of (get_property (language s))) as [n|].
  - rewrite Hfail. eexists _, _. split; [reflexivity|]. simpl.
    rewrite (alter_as_insert _ _ _ _ Hl), length_app. simpl.
    repeat split; lia.
  - eexists _, _. split; [reflexivity|]. simpl.
    rewrite (alter_as_insert _ _ _ _ Hl).
    repeat split; lia.
Qed.

(** [n] attempts remain, all of them fail. *)
Lemma loop_all_fail c m n :
  ∀ k w l s,
    (k + n = 4)%nat → (1 ≤ n)%nat →
    activeCalls w !! c = Some l →
    heap w !! l = Some s →
    (∀ j msgs, (length (requests w) ≤ j < length (requests w) + n)%nat →
               chat_create j msgs = None) →
    ∃ w', generateResponse chat_create c m k w = (Returned apology, w')
      ∧ activeCalls w' = activeCalls w
      ∧ heap w' = <[l := extend_history (retry_turns m n k (now w)) s]> (heap w)
      ∧ db w' = db w
      ∧ sleeps w' = sleeps w ++ drop k backoff
      ∧ (length (requests w) ≤ length (requests w') ≤ length (requests w) + n)%nat.
Proof.
  induction n as [|n IH]; intros k w l s Hk Hn Hc Hl Hfail; [lia|].
  rewrite generateResponse_step.
  destruct (try_fails c m w l s Hc Hl) as (e & w1 & -> & Hc1 & Hh1 & Hd1 & Ht1 & Hs1 & Hr1).
  { intros msgs. apply Hfail. lia. }
  destruct (decide (k < 3)%nat) as [Hlt|Hge].
  - set (d := 2 ^ Z.of_nat k * 1000).
    destruct (IH (k + 1)%nat (setTimeout d w1) l
                (push_history (user_turn m (now w)) s))
      as (w' & Hrun & Hc' & Hh' & Hd' & Hs' & Hr'); simpl; try lia.
    + congruence.
    + rewrite Hh1. apply list_lookup_insert_eq. by eapply lookup_lt_Some.
    + intros j msgs Hj. apply Hfail. lia.
    + exists w'. split; [exact Hrun|]. simpl in *.
      rewrite Hc', Hh', Hd', Hs', Hc1, Hh1, Hd1, Hs1, Ht1.
      rewrite list_insert_insert_eq, push_as_extend, extend_extend.
      rewrite (backoff_at k Hlt), <- app_assoc.
      repeat split; try reflexivity; lia.
  - assert (k = 3)%nat as -> by lia. assert (n = 0)%nat as -> by lia.
    exists w1. simpl. rewrite Hc1, Hh1, Hd1, Hs1.
    rewrite app_nil_r. repeat split; try reflexivity; lia.
Qed.

(** [n] attempts remain for a session whose language has a name. *)
Lemma loop_resolved c m n :
  ∀ k w l s,
    (k + n = 4)%nat → (1 ≤ n)%nat →
    activeCalls w !! c = Some l →
    heap w !! l = Some s →
    is_Some (name_of (get_property (language s))) →
    ∃ r w' new,
      generateResponse chat_create c m k w = (Returned r, w')
      ∧ requests w' = requests w ++ new
      ∧ (1 ≤ length new ≤ n)%nat
      ∧ sleeps w' = sleeps w ++ take (length new - 1) (drop k backoff)
      ∧ (∀ i msgs, (i < length new - 1)%nat → new !! i = Some msgs →
           chat_create (length (requests w) + i) msgs = None)
      ∧ match last new ≫= chat_create (length (requests w) + (length new - 1)) with
        | Some text => r = text
        | None => r = apology ∧ length new = n
        end.
Proof.
  induction n as [|n IH]; intros k w l s Hk Hn Hc Hl [nm Hnm]; [lia|].
  rewrite generateResponse_step, (try_present c m w l s Hc Hl), Hnm. simpl.
  set (msgs := build_messages nm _).
  destruct (chat_create (length (requests w)) msgs) as [a|] eqn:Hcall.
  - exists a, (after_answer l c m a (after_request msgs (after_user l m w))), [msgs].
    unfold after_answer.
    destruct (logConversation_frame c m a
      (mutate l (push_history (assistant_turn a (now (after_request msgs (after_user l m w)))))
         (after_request msgs (after_user l m w)))) as (_ & _ & _ & Hs & Hr).
    rewrite Hs, Hr. simpl. rewrite Nat.add_0_r, Hcall, app_nil_r.
    repeat split; try reflexivity; try lia.
  - destruct (decide (k < 3)%nat) as [Hlt|Hge].
    + set (d := 2 ^ Z.of_nat k * 1000).
      set (w1 := setTimeout d (after_request msgs (after_user l m w))).
      destruct (IH (k + 1)%nat w1 l (push_history (user_turn m (now w)) s))
        as (r & w' & new & Hrun & Hr & Hlen & Hs & Hfail & Hlast); simpl; try lia.
      * exact Hc.
      * by rewrite list_lookup_alter_eq, Hl.
      * eauto.
      * exists r, w', (msgs :: new). split; [exact Hrun|].
        simpl in Hr, Hs, Hfail, Hlast. rewrite length_app in Hfail, Hlast.
        simpl in Hfail, Hlast.
        rewrite Hr, Hs, (backoff_at k Hlt), <- !app_assoc. simpl.
        replace (length new - 0)%nat with (S (length new - 1)) by lia.
        repeat split; try reflexivity; try lia.
        -- intros [|i] msgs' Hi Hi'; simpl in Hi'.
           ++ simplify_eq. by rewrite Nat.add_0_r.
           ++ replace (length (requests w) + S i)%nat
                with (length (requests w) + 1 + i)%nat by lia.
              apply Hfail; [lia|done].
        -- destruct new as [|msgs' new]; [simpl in Hlen; lia|].
           change (last (msgs :: msgs' :: new)) with (last (msgs' :: new)).
           replace (length (requests w) + S (length (msgs' :: new) - 1))%nat
             with (length (requests w) + 1 + (length (msgs' :: new) - 1))%nat
             by (simpl; lia).
           destruct (last (msgs' :: new) ≫= _); [done|].
           destruct Hlast as [-> Hn']. split; [done|]. simpl in *. lia.
    + assert (n = 0)%nat as -> by lia.
      exists apology, (after_request msgs (after_user l m w)), [msgs].
      simpl. rewrite Nat.add_0_r, Hcall, app_nil_r.
      repeat split; try reflexivity; try lia.
Qed.

(** ** What no attempt touches *)

Lemma try_dangling c m w l :
  activeCalls w !! c = Some l →
  heap w !! l = None →
  generateResponse_try chat_create c m w = (Thrown TypeError, after_user l m w).
Proof.
  intros Hc Hl. unfold generateResponse_try. run. rewrite Hc. simpl.
  by rewrite list_lookup_alter_eq, Hl.
Qed.

Lemma try_frame c m w :
  let w' := snd (generateResponse_try chat_create c m w) in
  activeCalls w' = activeCalls w
  ∧ length (heap w') = length (heap w)
  ∧ requests w `prefix_of` requests w'.
Proof.
  destruct (activeCalls w !! c) as [l|] eqn:Hc.
  - destruct (heap w !! l) as [s|] eqn:Hl.
    + rewrite (try_present c m w l s Hc Hl). simpl.
      destruct (name_of _) as [n|]; simpl.
      * destruct (chat_create _ _) as [a|]; simpl.
        -- unfold after_answer.
           match goal with |- context [logConversation c m a ?w0] =>
             destruct (logConversation_frame c m a w0) as (-> & -> & _ & _ & ->)
           end.
           simpl. rewrite !length_alter. repeat split. by eexists.
        -- rewrite length_alter. repeat split. by eexists.
      * rewrite length_alter. by repeat split.
    + rewrite (try_dangling c m w l Hc Hl). simpl.
      rewrite length_alter. by repeat split.
  - rewrite (try_absent c m w Hc). by repeat split.
Qed.

Lemma generateResponse_frame c m k w :
  let w' := snd (generateResponse chat_create c m k w) in
  activeCalls w' = activeCalls w
  ∧ length (heap w') = length (heap w)
  ∧ requests w `prefix_of` requests w'.
Proof.
  remember (3 - k)%nat as n eqn:Hn. revert k w Hn.
  induction n as [|n IH]; intros k w Hn; rewrite generateResponse_step;
    pose proof (try_frame c m w) as Htry;
    destruct (generateResponse_try chat_create c m w) as [[r|e] w1];
    simpl in Htry; try exact Htry.
  - destruct (decide (k < 3)%nat); [lia|exact Htry].
  - destruct (decide (k < 3)%nat); [|exact Htry].
    destruct Htry as (Hc & Hh & Hr).
    destruct (IH (k + 1)%nat (setTimeout (2 ^ Z.of_nat k * 1000) w1))
      as (Hc' & Hh' & Hr'); [lia|].
    simpl in *. rewrite Hc', Hh', Hc, Hh. repeat split. by etrans.
Qed.

(** The method never rejects: every path of the [catch] block returns. *)
Lemma generateResponse_returns c m k w :
  ∃ r, fst (generateResponse chat_create c m k w) = Returned r.
Proof.
  remember (3 - k)%nat as n eqn:Hn. revert k w Hn.
  induction n as [|n IH]; intros k w Hn; rewrite generateResponse_step;
    destruct (generateResponse_try chat_create c m w) as [[r|e] w1]; simpl; eauto.
  - destruct (decide (k < 3)%nat); [lia|]. simpl. eauto.
  - destruct (decide (k < 3)%nat); [|simpl; eauto].
    apply IH. lia.
Qed.

Lemma generateResponse_wf c m k w :
  wf_world w → wf_world (snd (generateResponse chat_create c m k w)).
Proof.
  intros Hwf id l. destruct (generateResponse_frame c m k w) as (-> & -> & _).
  apply Hwf.
Qed.

Lemma endCall_wf c w : wf_world w → wf_world (snd (endCall c w)).
Proof.
  intros Hwf id l. unfold endCall. run.
  destruct (activeCalls w !! c) as [l0|] eqn:Hc; simpl; [|apply Hwf].
  rewrite !list_lookup_alter_eq.
  destruct (heap w !! l0) as [s|] eqn:Hl; simpl.
  - rewrite logCallEvent_returns. simpl.
    match goal with |- context [logCallEvent ?a ?b ?d ?w0] =>
      destruct (logCallEvent_frame a b d w0) as (-> & -> & _)
    end.
    simpl. rewrite !length_alter. intros H.
    apply lookup_delete_Some in H as [_ H]. by apply Hwf in H.
  - rewrite !length_alter. apply Hwf.
Qed.

(** The first request of a call carries the history with the caller's
    message at its end, cut to the window. *)
Lemma first_request c m k w l s n :
  activeCalls w !! c = Some l →
  heap w !! l = Some s →
  name_of (get_property (language s)) = Some n →
  requests (snd (generateResponse chat_create c m k w)) !! length (requests w)
  = Some (build_messages n (conversationHistory s ++ [user_turn m (now w)])).
Proof.
  intros Hc Hl Hn.
  rewrite generateResponse_step, (try_present c m w l s Hc Hl), Hn. simpl.
  destruct (chat_create _ _) as [a|].
  - simpl. unfold after_answer.
    match goal with |- context [logConversation c m a ?w0] =>
      destruct (logConversation_frame c m a w0) as (_ & _ & _ & _ & ->)
    end.
    simpl. by rewrite lookup_app_r, Nat.sub_diag by lia.
  - destruct (decide (k < 3)%nat); simpl.
    + match goal with |- context [generateResponse _ c m ?k' ?w0] =>
        destruct (generateResponse_frame c m k' w0) as (_ & _ & [extra ->])
      end.
      simpl. rewrite <- app_assoc.
      by rewrite lookup_app_r, Nat.sub_diag by lia.
    + by rewrite lookup_app_r, Nat.sub_diag by lia.
Qed.

End Attempt.

Lemma initializeCall_wf c from lang w :
  wf_world w → wf_world (snd (initializeCall c from lang w)).
Proof.
  intros Hwf id l. unfold initializeCall, allocate. run.
  rewrite logCallEvent_returns. simpl.
  match goal with |- context [logCallEvent ?a ?b ?d ?w0] =>
    destruct (logCallEvent_frame a b d w0) as (-> & -> & _)
  end.
  simpl. rewrite length_app. simpl. intros H.
  apply lookup_insert_Some in H as [[_ <-]|[_ H]]; [lia|].
  apply Hwf in H. lia.
Qed.

(** * The claims *)

(** ** Creation *)

(** C1, as the code has it: [initializeCall] never looks the call id up.
    Whatever the store held, it afterwards maps the id to a newly
    allocated session that is active, carries the given language (['en']
    when none is given) and has an empty history; objects already in the
    heap and the other ids of the store are left as they were.  In a
    store where every id leads to its own session object, the object the
    id led to before is afterwards reached from no id at all. *)
Theorem initializeCall_replaces c from lang w :
  let w' := snd (initializeCall c from lang w) in
  fst (initializeCall c from lang w) = Returned (length (heap w))
  ∧ activeCalls w' !! c = Some (length (heap w))
  ∧ session_of w' c =
      Some {| callSid := c; fromNumber := from; language := default "en" lang;
              startTime := now w; conversationHistory := []; audioBuffer := [];
              isActive := true; contextWindow := []; endTime := None |}
  ∧ (∀ l s, heap w !! l = Some s → heap w' !! l = Some s)
  ∧ (∀ c', c' ≠ c → activeCalls w' !! c' = activeCalls w !! c')
  ∧ (store_inv w →
     ∀ l, activeCalls w !! c = Some l → ∀ id, activeCalls w' !! id ≠ Some l).
Proof.
  unfold session_of, initializeCall, allocate. run.
  rewrite logCallEvent_returns. simpl.
  match goal with |- context [logCallEvent ?a ?b ?d ?w0] =>
    destruct (logCallEvent_frame a b d w0) as (-> & -> & _)
  end.
  simpl. rewrite lookup_insert_eq. simpl.
  rewrite lookup_app_r, Nat.sub_diag by lia. simpl.
  repeat split; try reflexivity.
  - intros l s Hl. by apply lookup_app_l_Some.
  - intros c' Hc'. by rewrite lookup_insert_ne.
  - intros Hinv l Hl id Hid.
    destruct (Hinv c l Hl) as (s & Hs & Hsid & _).
    apply lookup_insert_Some in Hid as [[_ Hnew]|[Hne Hold]].
    + apply lookup_lt_Some in Hs. lia.
    + destruct (Hinv id l Hold) as (s' & Hs' & Hsid' & _). congruence.
Qed.

(** C1 fails as stated: a session with two turns in its history is
    replaced by one with none when its call id is initialised again. *)
Lemma initializeCall_discards_history :
  length ∘ conversationHistory <$> session_of one_turn "CA1" = Some 2%nat
  ∧ conversationHistory <$>
      session_of (snd (initializeCall "CA1" "+15551234567" None one_turn)) "CA1"
    = Some []
  ∧ session_of (snd (initializeCall "CA1" "+15551234567" None one_turn)) "CA1"
    ≠ session_of one_turn "CA1".
Proof. vm_compute. repeat split; try reflexivity. discriminate. Qed.

Section Claims.

Variable chat_create : nat → list ChatMessage → option string.

(** ** Exhausted retries *)

(** C5: when the provider fails on all four attempts, the apology is
    returned and the session's history has grown by exactly four user
    turns carrying the caller's message (pushed at the start of each
    attempt, 0 s, 1 s, 3 s and 7 s after the first) and by no assistant
    turn. *)
Theorem exhausted_retries_push_four_user_turns c m w s :
  session_of w c = Some s →
  (∀ j msgs, (length (requests w) ≤ j < length (requests w) + 4)%nat →
             chat_create j msgs = None) →
  ∃ w' s' added,
    generateResponse chat_create c m 0 w = (Returned apology, w')
    ∧ session_of w' c = Some s'
    ∧ conversationHistory s' = conversationHistory s ++ added
    ∧ added = [user_turn m (now w); user_turn m (now w + 1000);
               user_turn m (now w + 3000); user_turn m (now w + 7000)]
    ∧ to_message <$> added = replicate 4 {| msg_role := user; msg_content := m |}
    ∧ length (conversationHistory s') = (length (conversationHistory s) + 4)%nat.
Proof.
  intros (l & Hc & Hl)%session_of_Some Hfail.
  destruct (loop_all_fail chat_create c m 4 0 w l s)
    as (w' & Hrun & Hc' & Hh' & _); try done; try lia.
  rewrite retry_turns_four in Hh'.
  eexists w', _, _. split; [exact Hrun|].
  unfold session_of. rewrite Hc', Hc, Hh'. simpl.
  rewrite list_lookup_insert_eq by (by eapply lookup_lt_Some).
  split; [reflexivity|]. simpl.
  repeat split. rewrite length_app. reflexivity.
Qed.

(** C2, as the code has it: when the provider fails on all four attempts
    the apology is returned but not recorded; whatever the call added to
    the history, no assistant turn is among it. *)
Theorem exhausted_retries_apology_not_recorded c m w s :
  session_of w c = Some s →
  (∀ j msgs, (length (requests w) ≤ j < length (requests w) + 4)%nat →
             chat_create j msgs = None) →
  ∃ w' s' added,
    generateResponse chat_create c m 0 w = (Returned apology, w')
    ∧ session_of w' c = Some s'
    ∧ conversationHistory s' = conversationHistory s ++ added
    ∧ Forall (λ t, role t ≠ assistant) added.
Proof.
  intros (l & Hc & Hl)%session_of_Some Hfail.
  destruct (loop_all_fail chat_create c m 4 0 w l s)
    as (w' & Hrun & Hc' & Hh' & _); try done; try lia.
  eexists w', _, _. split; [exact Hrun|].
  unfold session_of. rewrite Hc', Hc, Hh'. simpl.
  rewrite list_lookup_insert_eq by (by eapply lookup_lt_Some).
  split; [reflexivity|]. simpl. split; [reflexivity|].
  repeat constructor; simpl; discriminate.
Qed.

(** ** Unknown call ids *)

(** For a call id the store does not hold, the error thrown in the [try]
    block is caught by the method's own [catch]: after the three waits
    the apology is returned as an ordinary result; the provider is not
    asked, and store, sessions and log are untouched.  [endCall] with
    such an id does nothing. *)
Lemma unknown_call_id c m w :
  activeCalls w !! c = None →
  generateResponse chat_create c m 0 w =
    (Returned apology, setTimeout 4000 (setTimeout 2000 (setTimeout 1000 w)))
  ∧ endCall c w = (Returned tt, w).
Proof.
  intros Hc. split.
  - rewrite generateResponse_step, (try_absent _ c m w Hc). simpl.
    rewrite generateResponse_step, try_absent by exact Hc. simpl.
    rewrite generateResponse_step, try_absent by exact Hc. simpl.
    rewrite generateResponse_step, try_absent by exact Hc. simpl.
    reflexivity.
  - unfold endCall. run. by rewrite Hc.
Qed.

(** ** Retry and backoff *)

(** C6: for a session whose language has a name, [generateResponse]
    always returns an utterance.  It asks the provider between one and
    four times; every request but the last failed; between consecutive
    requests it waits 1000, 2000 and 4000 ms, in that order; if the last
    request succeeded its text is the result, unchanged, and otherwise
    four requests were made and the result is the apology. *)
Theorem retry_policy c m w s :
  session_of w c = Some s →
  is_Some (name_of (get_property (language s))) →
  ∃ r w' new,
    generateResponse chat_create c m 0 w = (Returned r, w')
    ∧ requests w' = requests w ++ new
    ∧ (1 ≤ length new ≤ 4)%nat
    ∧ sleeps w' = sleeps w ++ take (length new - 1) [1000; 2000; 4000]
    ∧ (∀ i msgs, (i < length new - 1)%nat → new !! i = Some msgs →
         chat_create (length (requests w) + i) msgs = None)
    ∧ match last new ≫= chat_create (length (requests w) + (length new - 1)) with
      | Some text => r = text
      | None => r = apology ∧ length new = 4%nat
      end.
Proof.
  intros (l & Hc & Hl)%session_of_Some Hname.
  exact (loop_resolved chat_create c m 4 0 w l s eq_refl ltac:(lia) Hc Hl Hname).
Qed.

(** ** A turn answered at the first attempt *)

Lemma answered_at_once c m w s n a :
  session_of w c = Some s →
  name_of (get_property (language s)) = Some n →
  chat_create (length (requests w))
    (build_messages n (conversationHistory s ++ [user_turn m (now w)])) = Some a →
  ∃ w', generateResponse chat_create c m 0 w = (Returned a, w')
    ∧ conversationHistory <$> session_of w' c =
        Some (conversationHistory s ++ [user_turn m (now w); assistant_turn a (now w)]).
Proof.
  intros (l & Hc & Hl)%session_of_Some Hn Ha.
  rewrite generateResponse_step, (try_present _ c m w l s Hc Hl), Hn. simpl.
  rewrite Ha. eexists. split; [reflexivity|].
  unfold session_of, after_answer.
  match goal with |- context [logConversation c m a ?w0] =>
    destruct (logConversation_frame c m a w0) as (-> & -> & _)
  end.
  simpl. rewrite Hc. simpl. rewrite !list_lookup_alter_eq, Hl. simpl.
  by rewrite <- app_assoc.
Qed.

(** ** The context window *)


(** With fifteen turns before the call, the ten are the last nine of
    them and the caller's new message. *)
Lemma fifteen_prior_turns c m k w s n :
  session_of w c = Some s →
  name_of (get_property (language s)) = Some n →
  length (conversationHistory s) = 15%nat →
  requests (snd (generateResponse chat_create c m k w)) !! length (requests w)
  = Some ({| msg_role := system; msg_content := system_prompt n |}
          :: map to_message (drop 6 (conversationHistory s) ++ [user_turn m (now w)])).
Proof.
  intros (l & Hc & Hl)%session_of_Some Hn Hlen.
  rewrite (first_request chat_create c m k w l s n Hc Hl Hn).
  unfold build_messages, slice_last. rewrite length_app, Hlen. simpl.
  by rewrite drop_app_le by lia.
Qed.

(** ** Low confidence *)

(** C9: a speech event that names its call and carries no text, an
    empty text, or a confidence below one half is answered with the
    request to repeat, and the world is left exactly as it was: no
    request reaches the provider and no history changes. *)
Theorem low_confidence_rejected body w :
  falsy (CallSid body) = false →
  (SpeechResult body = None ∨ SpeechResult body = Some ""
   ∨ ∃ q, Confidence body = ConfidenceNumber q ∧ (q < 1 # 2)%Q) →
  voice_process chat_create (Some body) w = (PleaseRepeat, w)
  ∧ first_say PleaseRepeat = Some "I didn't quite catch that. Could you please repeat?".
Proof.
  intros Hsid Hlow. split; [|reflexivity].
  unfold voice_process. rewrite Hsid.
  assert (falsy (SpeechResult body) || below_threshold (Confidence body) = true) as ->;
    [|reflexivity].
  destruct Hlow as [-> | [-> | (q & -> & Hq)]]; try reflexivity.
  apply orb_true_iff. right. simpl.
  apply negb_true_iff, not_true_iff_false. intros Hle%Qle_bool_iff.
  by apply Qlt_not_le in Hq.
Qed.

End Claims.

(** ** Termination *)

(** C10: [endCall] on a call id that leads to a session marks that session
    object inactive ([isActive] is [false]), stamps its end time ([endTime]
    is the time of the call to [endCall]), keeps its history, and removes
    the id from the store,
    so that looking the id up finds nothing; a second [endCall] on the same
    id changes nothing, and neither does [endCall] on any id the store does
    not hold.  None of these throws. *)
Theorem endCall_once c w l s :
  activeCalls w !! c = Some l →
  heap w !! l = Some s →
  let w' := snd (endCall c w) in
  fst (endCall c w) = Returned tt
  ∧ heap w' !! l = Some (set_endTime (now w) (set_isActive false s))
  ∧ isActive <$> heap w' !! l = Some false
  ∧ endTime <$> heap w' !! l = Some (Some (now w))
  ∧ conversationHistory <$> heap w' !! l = Some (conversationHistory s)
  ∧ activeCalls w' !! c = None
  ∧ session_of w' c = None
  ∧ endCall c w' = (Returned tt, w')
  ∧ (∀ c0 w0, activeCalls w0 !! c0 = None → endCall c0 w0 = (Returned tt, w0)).
Proof.
  intros Hc Hl.
  assert (∀ c0 w0, activeCalls w0 !! c0 = None → endCall c0 w0 = (Returned tt, w0))
    as Hnoop.
  { intros c0 w0 H0. unfold endCall. run. by rewrite H0. }
  assert (activeCalls (snd (endCall c w)) !! c = None
          ∧ fst (endCall c w) = Returned tt
          ∧ heap (snd (endCall c w)) !! l
            = Some (set_endTime (now w) (set_isActive false s))) as (Hgone & Hret & Hobj).
  { unfold endCall. run. rewrite Hc. simpl.
    rewrite !list_lookup_alter_eq, Hl. simpl.
    rewrite logCallEvent_returns. simpl.
    match goal with |- context [logCallEvent ?a ?b ?d ?w0] =>
      destruct (logCallEvent_frame a b d w0) as (-> & -> & _)
    end.
    simpl. rewrite lookup_delete_eq, !list_lookup_alter_eq, Hl. done. }
  simpl. repeat split; try done.
  - by rewrite Hobj.
  - by rewrite Hobj.
  - by rewrite Hobj.
  - unfold session_of. by rewrite Hgone.
  - by apply Hnoop.
Qed.

(** * The claims on concrete calls *)

(** [exhausted_retries_push_four_user_turns] on a new call whose provider
    always fails. *)
Lemma exhausted_retries_push_four_user_turns_witness :
  session_of one_call "CA1" = Some new_session
  ∧ ∃ w' s' added,
      generateResponse always_fail "CA1" "hello" 0 one_call = (Returned apology, w')
      ∧ session_of w' "CA1" = Some s'
      ∧ conversationHistory s' = conversationHistory new_session ++ added
      ∧ added = [user_turn "hello" (now one_call); user_turn "hello" (now one_call + 1000);
                 user_turn "hello" (now one_call + 3000);
                 user_turn "hello" (now one_call + 7000)]
      ∧ to_message <$> added = replicate 4 {| msg_role := user; msg_content := "hello" |}
      ∧ length (conversationHistory s')
        = (length (conversationHistory new_session) + 4)%nat.
Proof.
  split; [vm_compute; reflexivity|].
  apply (exhausted_retries_push_four_user_turns always_fail "CA1" "hello" one_call new_session).
  - vm_compute. reflexivity.
  - reflexivity.
Defined.

(** [exhausted_retries_apology_not_recorded] on the same call. *)
Lemma exhausted_retries_apology_not_recorded_witness :
  session_of one_call "CA1" = Some new_session
  ∧ ∃ w' s' added,
      generateResponse always_fail "CA1" "hello" 0 one_call = (Returned apology, w')
      ∧ session_of w' "CA1" = Some s'
      ∧ conversationHistory s' = conversationHistory new_session ++ added
      ∧ Forall (λ t, role t ≠ assistant) added.
Proof.
  split; [vm_compute; reflexivity|].
  apply (exhausted_retries_apology_not_recorded always_fail "CA1" "hello" one_call new_session).
  - vm_compute. reflexivity.
  - reflexivity.
Defined.

(** C2 fails as stated: after four failed attempts the apology is returned,
    yet the history holds four user turns and ends with one of them. *)
Lemma apology_missing_from_history :
  fst (generateResponse always_fail "CA1" "hello" 0 one_call) = Returned apology
  ∧ conversationHistory <$>
      session_of (snd (generateResponse always_fail "CA1" "hello" 0 one_call)) "CA1"
    = Some [user_turn "hello" 0; user_turn "hello" 1000;
            user_turn "hello" 3000; user_turn "hello" 7000]
  ∧ role <$> (session_of (snd (generateResponse always_fail "CA1" "hello" 0 one_call)) "CA1"
              ≫= last ∘ conversationHistory)
    = Some user.
Proof. vm_compute. repeat split; reflexivity. Qed.

(** C3 on a concrete call: with no session for the call id, and a provider
    that would answer, [generateResponse] does not hand the error it throws
    to its caller; it returns the apology as its value, and the speech
    webhook says it to the caller as any other reply. *)
Lemma unknown_call_id_gets_an_utterance :
  generateResponse (fail_then 0 "Sunny.") "CA404" "hello" 0 empty_world
  ≠ (Thrown SessionNotFound, empty_world)
  ∧ fst (generateResponse (fail_then 0 "Sunny.") "CA404" "hello" 0 empty_world)
    = Returned apology
  ∧ fst (voice_process (fail_then 0 "Sunny.")
           (Some (speech "CA404" "hello" (ConfidenceNumber (9 # 10)))) empty_world)
    = Reply apology.
Proof. vm_compute. repeat split; try reflexivity. discriminate. Qed.


(** [retry_policy] on a new call whose provider fails three times. *)
Lemma retry_policy_witness :
  session_of one_call "CA1" = Some new_session
  ∧ is_Some (name_of (get_property (language new_session)))
  ∧ ∃ r w' new,
      generateResponse (fail_then 3 "Sunny.") "CA1" "hello" 0 one_call = (Returned r, w')
      ∧ requests w' = requests one_call ++ new
      ∧ (1 ≤ length new ≤ 4)%nat
      ∧ sleeps w' = sleeps one_call ++ take (length new - 1) [1000; 2000; 4000]
      ∧ (∀ i msgs, (i < length new - 1)%nat → new !! i = Some msgs →
           fail_then 3 "Sunny." (length (requests one_call) + i) msgs = None)
      ∧ match last new
              ≫= fail_then 3 "Sunny." (length (requests one_call) + (length new - 1)) with
        | Some text => r = text
        | None => r = apology ∧ length new = 4%nat
        end.
Proof.
  split; [vm_compute; reflexivity|].
  split; [vm_compute; eauto|].
  apply (retry_policy (fail_then 3 "Sunny.") "CA1" "hello" one_call new_session).
  - vm_compute. reflexivity.
  - vm_compute. eauto.
Defined.

(** Three failures and then an answer: the answer is returned after waits
    of one, two and four seconds and four requests. *)
Example three_failures_then_success :
  fst (generateResponse (fail_then 3 "Sunny.") "CA1" "hello" 0 one_call) = Returned "Sunny."
  ∧ sleeps (snd (generateResponse (fail_then 3 "Sunny.") "CA1" "hello" 0 one_call))
    = [1000; 2000; 4000]
  ∧ length (requests (snd (generateResponse (fail_then 3 "Sunny.") "CA1" "hello" 0 one_call)))
    = 4%nat.
Proof. vm_compute. repeat split; reflexivity. Qed.

(** Four failures: the apology, after the same waits and four requests. *)
Example four_failures_then_apology :
  fst (generateResponse (fail_then 4 "Sunny.") "CA1" "hello" 0 one_call) = Returned apology
  ∧ sleeps (snd (generateResponse (fail_then 4 "Sunny.") "CA1" "hello" 0 one_call))
    = [1000; 2000; 4000]
  ∧ length (requests (snd (generateResponse (fail_then 4 "Sunny.") "CA1" "hello" 0 one_call)))
    = 4%nat.
Proof. vm_compute. repeat split; reflexivity. Qed.

(** C7 on a concrete call: the first attempt fails, the second is
    answered.  The caller's message is in the history twice, so the turn
    has added three entries, not two. *)
Lemma retried_turn_appends_three :
  conversationHistory <$> session_of one_call "CA1" = Some []
  ∧ fst (voice_process (fail_then 1 "Sunny.")
           (Some (speech "CA1" "What's the weather?" (ConfidenceNumber (9 # 10))))
           one_call)
    = Reply "Sunny."
  ∧ conversationHistory <$>
      session_of
        (snd (voice_process (fail_then 1 "Sunny.")
                (Some (speech "CA1" "What's the weather?" (ConfidenceNumber (9 # 10))))
                one_call))
        "CA1"
    = Some [user_turn "What's the weather?" 0; user_turn "What's the weather?" 1000;
            assistant_turn "Sunny." 1000].
Proof. vm_compute. repeat split; reflexivity. Qed.


(** Fifteen turns, numbered 0 to 14 by their time stamps: the request
    holds the system instruction, turns 6 to 14 and the new message. *)
Example fifteen_turn_window :
  map msg_role <$> head (requests
    (snd (generateResponse (fail_then 0 "Sunny.") "CA1" "hello" 0 long_call)))
  = Some (system :: map role (drop 6 fifteen_turns) ++ [user])
  ∧ length <$> head (requests
      (snd (generateResponse (fail_then 0 "Sunny.") "CA1" "hello" 0 long_call)))
    = Some 11%nat.
Proof. vm_compute. split; reflexivity. Qed.

(** [low_confidence_rejected] for a mumbled turn of confidence 0.2. *)
Lemma low_confidence_rejected_witness :
  falsy (CallSid (speech "CA1" "mumble" (ConfidenceNumber (2 # 10)))) = false
  ∧ voice_process (fail_then 0 "Sunny.")
      (Some (speech "CA1" "mumble" (ConfidenceNumber (2 # 10)))) one_turn
    = (PleaseRepeat, one_turn)
  ∧ first_say PleaseRepeat = Some "I didn't quite catch that. Could you please repeat?".
Proof.
  split; [reflexivity|].
  apply (low_confidence_rejected (fail_then 0 "Sunny.")
           (speech "CA1" "mumble" (ConfidenceNumber (2 # 10))) one_turn).
  - reflexivity.
  - right. right. exists (2 # 10)%Q. split; reflexivity.
Defined.

(** [endCall_once] on a new call. *)
Lemma endCall_once_witness :
  activeCalls one_call !! "CA1" = Some 0%nat
  ∧ heap one_call !! 0%nat = Some new_session
  ∧ fst (endCall "CA1" one_call) = Returned tt
  ∧ heap (snd (endCall "CA1" one_call)) !! 0%nat
    = Some (set_endTime (now one_call) (set_isActive false new_session))
  ∧ isActive <$> heap (snd (endCall "CA1" one_call)) !! 0%nat = Some false
  ∧ endTime <$> heap (snd (endCall "CA1" one_call)) !! 0%nat
    = Some (Some (now one_call))
  ∧ conversationHistory <$> heap (snd (endCall "CA1" one_call)) !! 0%nat
    = Some (conversationHistory new_session)
  ∧ activeCalls (snd (endCall "CA1" one_call)) !! "CA1" = None
  ∧ session_of (snd (endCall "CA1" one_call)) "CA1" = None
  ∧ endCall "CA1" (snd (endCall "CA1" one_call))
    = (Returned tt, snd (endCall "CA1" one_call))
  ∧ (∀ c0 w0, activeCalls w0 !! c0 = None → endCall c0 w0 = (Returned tt, w0)).
Proof.
  split; [vm_compute; reflexivity|].
  split; [vm_compute; reflexivity|].
  apply (endCall_once "CA1" one_call 0%nat new_session).
  - vm_compute. reflexivity.
  - vm_compute. reflexivity.
Defined.


(** * Further properties of the session code *)


Lemma initializeCall_effect c from lang w :
  initializeCall c from lang w =
  (Returned (length (heap w)),
   {| activeCalls := <[c := length (heap w)]> (activeCalls w);
      heap := heap w ++
        [{| callSid := c; fromNumber := from; language := default "en" lang;
            startTime := now w; conversationHistory := []; audioBuffer := [];
            isActive := true; contextWindow := []; endTime := None |}];
      db := insert_call_log
              {| log_callSid := c; log_eventType := "call_initiated";
                 log_data := CallInitiated from (default "en" lang) (now w);
                 log_timestamp := now w |} <$> db w;
      now := now w; sleeps := sleeps w; requests := requests w |}).
Proof.
  unfold initializeCall, logCallEvent, allocate. run.
  destruct (db w) as [d|] eqn:Hd;
    unfold with_db, with_activeCalls, with_heap; simpl; by rewrite ?Hd.
Qed.

Lemma endCall_effect c w l s :
  activeCalls w !! c = Some l →
  heap w !! l = Some s →
  endCall c w =
  (Returned tt,
   {| activeCalls := delete c (activeCalls w);
      heap := <[l := set_endTime (now w) (set_isActive false s)]> (heap w);
      db := insert_call_log
              {| log_callSid := c; log_eventType := "call_ended";
                 log_data := CallEnded (now w - startTime s)
                               (length (conversationHistory s));
                 log_timestamp := now w |} <$> db w;
      now := now w; sleeps := sleeps w; requests := requests w |}).
Proof.
  intros Hc Hl. unfold endCall, logCallEvent. run. rewrite Hc. simpl.
  rewrite !list_lookup_alter_eq, Hl. simpl.
  destruct (db w) as [d|] eqn:Hd;
    unfold with_db, with_activeCalls, with_heap, mutate; simpl; rewrite ?Hd;
    rewrite (alter_as_insert _ _ _ _ Hl);
    rewrite (alter_as_insert _ _ l (set_isActive false s))
      by (apply list_lookup_insert_eq; by eapply lookup_lt_Some);
    by rewrite list_insert_insert_eq.
Qed.

Lemma endCall_absent c w : activeCalls w !! c = None → endCall c w = (Returned tt, w).
Proof. intros Hc. unfold endCall. run. by rewrite Hc. Qed.

Section Sessions.

Variable chat_create : nat → list ChatMessage → option string.

(** One attempt only appends to the history of its own session object. *)
Lemma try_heap c m w l s :
  activeCalls w !! c = Some l →
  heap w !! l = Some s →
  ∃ added, heap (snd (generateResponse_try chat_create c m w))
           = <[l := extend_history added s]> (heap w).
Proof.
  intros Hc Hl. rewrite (try_present _ c m w l s Hc Hl). simpl.
  destruct (name_of _) as [n|]; simpl.
  - destruct (chat_create _ _) as [a|]; simpl.
    + unfold after_answer.
      match goal with |- context [logConversation c m a ?w0] =>
        destruct (logConversation_frame c m a w0) as (_ & -> & _)
      end.
      simpl. rewrite (alter_as_insert _ _ _ _ Hl).
      erewrite alter_as_insert
        by (apply list_lookup_insert_eq; by eapply lookup_lt_Some).
      rewrite list_insert_insert_eq, !push_as_extend, extend_extend. by eexists.
    + rewrite (alter_as_insert _ _ _ _ Hl), push_as_extend. by eexists.
  - rewrite (alter_as_insert _ _ _ _ Hl), push_as_extend. by eexists.
Qed.

Lemma generateResponse_heap c m n :
  ∀ k w l s,
    (3 - k = n)%nat →
    activeCalls w !! c = Some l →
    heap w !! l = Some s →
    ∃ added, heap (snd (generateResponse chat_create c m k w))
             = <[l := extend_history added s]> (heap w).
Proof.
  induction n as [|n IH]; intros k w l s Hk Hc Hl;
    rewrite generateResponse_step;
    destruct (try_heap c m w l s Hc Hl) as [added Hadded];
    pose proof (try_frame chat_create c m w) as (Hc1 & _ & _);
    destruct (generateResponse_try chat_create c m w) as [[r|e] w1];
    simpl in *; eauto.
  - destruct (decide (k < 3)%nat); [lia|]. simpl. eauto.
  - destruct (decide (k < 3)%nat); [|simpl; eauto].
    destruct (IH (k + 1)%nat (setTimeout (2 ^ Z.of_nat k * 1000) w1) l
                (extend_history added s)) as [added' Hadded']; simpl; try lia.
    + congruence.
    + rewrite Hadded. apply list_lookup_insert_eq. by eapply lookup_lt_Some.
    + exists (added ++ added'). rewrite Hadded'. simpl.
      by rewrite Hadded, list_insert_insert_eq, extend_extend.
Qed.

(** X1: the speech webhook never answers with the technical-difficulties
    message: whatever the request, the store and the provider, every error
    raised while generating is absorbed by [generateResponse] itself, so the
    [catch] block of the route is never entered. *)
Theorem voice_process_catch_unreachable req w :
  fst (voice_process chat_create req w) ≠ TechnicalDifficulties.
Proof.
  unfold voice_process. destruct req as [body|]; [|done].
  destruct (falsy (CallSid body)); [done|].
  unfold try_catch.
  destruct (falsy (SpeechResult body) || below_threshold (Confidence body)); [done|].
  unfold mbind, Async_bind, mret, Async_ret.
  destruct (generateResponse_returns chat_create (default "" (CallSid body))
              (default "" (SpeechResult body)) 0 w) as [r Hr].
  destruct (generateResponse _ _ _ _ w) as [o w']. simpl in Hr. by subst o.
Qed.

(** X2: [generateResponse] only ever appends to the history of the session
    it is called for.  Whatever the provider does and whichever retry it
    starts from, the session afterwards is the old one with turns added at
    the end, every other session object is as it was, and the store maps
    the same ids to the same objects. *)
Theorem history_append_only c m k w l s :
  activeCalls w !! c = Some l →
  heap w !! l = Some s →
  let w' := snd (generateResponse chat_create c m k w) in
  (∃ added, session_of w' c = Some (extend_history added s))
  ∧ (∀ l', l' ≠ l → heap w' !! l' = heap w !! l')
  ∧ activeCalls w' = activeCalls w.
Proof.
  intros Hc Hl w'.
  destruct (generateResponse_heap c m (3 - k) k w l s eq_refl Hc Hl) as [added Hh].
  destruct (generateResponse_frame chat_create c m k w) as (Hc' & _ & _).
  fold w' in Hh, Hc'. repeat split; [|intros l' Hl'|done].
  - exists added. unfold session_of. rewrite Hc', Hc, Hh. simpl.
    apply list_lookup_insert_eq. by eapply lookup_lt_Some.
  - rewrite Hh. by apply list_lookup_insert_ne.
Qed.

End Sessions.

Section Turns.

Variable chat_create : nat → list ChatMessage → option string.


(** [n] attempts remain for a session whose language has no name. *)
Lemma loop_unresolved c m n :
  ∀ k w l s,
    (k + n = 4)%nat → (1 ≤ n)%nat →
    activeCalls w !! c = Some l →
    heap w !! l = Some s →
    name_of (get_property (language s)) = None →
    ∃ w', generateResponse chat_create c m k w = (Returned apology, w')
      ∧ requests w' = requests w
      ∧ db w' = db w
      ∧ activeCalls w' = activeCalls w
      ∧ heap w' = <[l := extend_history (retry_turns m n k (now w)) s]> (heap w)
      ∧ sleeps w' = sleeps w ++ drop k backoff.
Proof.
  induction n as [|n IH]; intros k w l s Hk Hn Hc Hl Hnm; [lia|].
  rewrite generateResponse_step, (try_present _ c m w l s Hc Hl), Hnm. simpl.
  destruct (decide (k < 3)%nat) as [Hlt|Hge].
  - set (d := 2 ^ Z.of_nat k * 1000).
    destruct (IH (k + 1)%nat (setTimeout d (after_user l m w)) l
                (push_history (user_turn m (now w)) s))
      as (w' & Hrun & Hr & Hd & Hc' & Hh & Hs); simpl; try lia.
    + exact Hc.
    + by rewrite list_lookup_alter_eq, Hl.
    + exact Hnm.
    + exists w'. split; [exact Hrun|]. simpl in *.
      rewrite Hr, Hd, Hc', Hh, Hs, (alter_as_insert _ _ _ _ Hl).
      rewrite list_insert_insert_eq, push_as_extend, extend_extend.
      by rewrite (backoff_at k Hlt), <- app_assoc.
  - assert (k = 3)%nat as -> by lia. assert (n = 0)%nat as -> by lia.
    exists (after_user l m w). simpl.
    rewrite (alter_as_insert _ _ _ _ Hl), app_nil_r.
    repeat split; reflexivity.
Qed.


(** X4: for a session whose language code is neither in the table nor a
    property of [Object.prototype], [generateResponse] never reaches the
    provider, whatever the provider would have answered: it returns the
    apology, writes nothing to the database, and leaves the caller's message
    in the history four times. *)
Theorem unsupported_language_skips_provider c m w s :
  session_of w c = Some s →
  get_property (language s) = Undefined →
  ∃ w' s',
    generateResponse chat_create c m 0 w = (Returned apology, w')
    ∧ requests w' = requests w
    ∧ db w' = db w
    ∧ session_of w' c = Some s'
    ∧ map to_message (conversationHistory s')
      = map to_message (conversationHistory s)
        ++ replicate 4 {| msg_role := user; msg_content := m |}.
Proof.
  intros (l & Hc & Hl)%session_of_Some Hlang.
  destruct (loop_unresolved c m 4 0 w l s eq_refl ltac:(lia) Hc Hl)
    as (w' & Hrun & Hr & Hd & Hc' & Hh & _).
  { by rewrite Hlang. }
  exists w', (extend_history (retry_turns m 4 0 (now w)) s).
  split; [exact Hrun|]. repeat split; auto.
  - unfold session_of. rewrite Hc', Hc, Hh. simpl.
    apply list_lookup_insert_eq. by eapply lookup_lt_Some.
  - rewrite retry_turns_four. simpl. by rewrite map_app.
Qed.


(** X6: a speech event that arrives after the call has been ended finds no
    session: the provider is not asked, the caller gets the apology after
    the three waits, and the call id stays absent from the store. *)
Theorem speech_after_hangup c m w l s :
  activeCalls w !! c = Some l →
  heap w !! l = Some s →
  let ended := snd (endCall c w) in
  let w' := snd (generateResponse chat_create c m 0 ended) in
  fst (generateResponse chat_create c m 0 ended) = Returned apology
  ∧ requests w' = requests w
  ∧ activeCalls w' !! c = None
  ∧ heap w' = heap ended
  ∧ sleeps w' = sleeps w ++ [1000; 2000; 4000].
Proof.
  intros Hc Hl. rewrite (endCall_effect c w l s Hc Hl). simpl.
  match goal with |- context [generateResponse _ c m 0 ?w0] =>
    destruct (unknown_call_id chat_create c m w0) as [-> _]
  end.
  { simpl. apply lookup_delete_eq. }
  simpl. rewrite lookup_delete_eq, <- !app_assoc. done.
Qed.

End Turns.

(** X7: creating a call under an id the store does not hold and then ending
    it gives back the store as it was; the session object stays in memory,
    inactive and stamped, and nothing was asked of the provider. *)
Theorem create_then_end_restores_store c from lang w :
  activeCalls w !! c = None →
  let created := snd (initializeCall c from lang w) in
  let w' := snd (endCall c created) in
  fst (endCall c created) = Returned tt
  ∧ activeCalls w' = activeCalls w
  ∧ (isActive <$> heap w' !! length (heap w)) = Some false
  ∧ (endTime <$> heap w' !! length (heap w)) = Some (Some (now w))
  ∧ requests w' = requests w.
Proof.
  intros Hc. rewrite initializeCall_effect. simpl.
  erewrite endCall_effect; simpl.
  - rewrite delete_insert_eq, (delete_id _ _ Hc).
    rewrite list_lookup_insert_eq by (rewrite length_app; simpl; lia).
    done.
  - apply lookup_insert_eq.
  - by rewrite lookup_app_r, Nat.sub_diag by lia.
Qed.

(** X8: with a database, ending a call writes exactly one [call_ended]
    event, carrying the time since the call started and the number of turns
    in its history; the conversation rows are not touched. *)
Theorem endCall_logs_once c w l s d :
  activeCalls w !! c = Some l →
  heap w !! l = Some s →
  db w = Some d →
  db (snd (endCall c w))
  = Some {| conversations := conversations d;
            call_logs := call_logs d ++
              [{| log_callSid := c; log_eventType := "call_ended";
                  log_data := CallEnded (now w - startTime s)
                                (length (conversationHistory s));
                  log_timestamp := now w |}] |}.
Proof.
  intros Hc Hl Hd. rewrite (endCall_effect c w l s Hc Hl). simpl.
  by rewrite Hd.
Qed.

(** * Further properties of the webhooks *)

Lemma ends_call_finished st :
  ends_call st = true ↔ ∃ state, st = Some state ∧ state ∈ finished.
Proof.
  unfold ends_call, finished. rewrite !orb_true_iff, !bool_decide_eq_true. split.
  - intros [[[->| ->]| ->]| ->]; eexists; (split; [reflexivity|]); set_solver.
  - intros (state & -> & H). set_unfold in H.
    destruct H as [->|[->|[->|[->|[]]]]]; auto.
Qed.

Lemma falsy_Some text : text ≠ "" → falsy (Some text) = false.
Proof. intros H. simpl. by apply bool_decide_eq_false. Qed.

(** X9: a status callback whose status is not one of completed, failed,
    busy and no-answer (ringing or in-progress, say, or none at all) is
    acknowledged and changes nothing. *)
Theorem voice_status_ignores_unfinished body w :
  falsy (CallSid body) = false →
  (∀ state, CallStatus body = Some state → state ∉ finished) →
  voice_status (Some body) w = (Status200, w).
Proof.
  intros Hsid Hst. unfold voice_status. rewrite Hsid.
  destruct (ends_call (CallStatus body)) eqn:He; [|reflexivity].
  apply ends_call_finished in He as (state & Hs & Hin). by destruct (Hst state Hs).
Qed.

(** X10: a status callback with one of the four final statuses is
    acknowledged and removes the call id from the store, whether or not
    the store held it; the other ids keep their sessions. *)
Theorem voice_status_ends_finished body w sid state :
  wf_world w →
  CallSid body = Some sid → sid ≠ "" →
  CallStatus body = Some state → state ∈ finished →
  fst (voice_status (Some body) w) = Status200
  ∧ activeCalls (snd (voice_status (Some body) w)) = delete sid (activeCalls w)
  ∧ requests (snd (voice_status (Some body) w)) = requests w.
Proof.
  intros Hwf Hsid Hne Hst Hin. unfold voice_status.
  rewrite Hsid, (falsy_Some sid Hne).
  assert (ends_call (CallStatus body) = true) as ->
    by (apply ends_call_finished; eauto).
  simpl. unfold async_route, mbind, Async_bind, mret, Async_ret.
  destruct (activeCalls w !! sid) as [l|] eqn:Hc.
  - destruct (lookup_lt_is_Some_2 (heap w) l (Hwf sid l Hc)) as [s Hl].
    by rewrite (endCall_effect sid w l s Hc Hl).
  - rewrite (endCall_absent sid w Hc). simpl. by rewrite delete_id.
Qed.

(** X11: the incoming-call webhook always creates its session in English:
    for a request with a call id and a caller, the caller is greeted and the
    store leads from the id to a new, active session with language ['en'],
    a language the response generator can name. *)
Theorem voice_incoming_creates_english_session body w sid from :
  CallSid body = Some sid → sid ≠ "" →
  From body = Some from → from ≠ "" →
  fst (voice_incoming (Some body) w) = Greeting
  ∧ session_of (snd (voice_incoming (Some body) w)) sid
    = Some {| callSid := sid; fromNumber := from; language := "en";
              startTime := now w; conversationHistory := []; audioBuffer := [];
              isActive := true; contextWindow := []; endTime := None |}
  ∧ name_of (get_property "en") = Some "English".
Proof.
  intros Hsid Hne Hfrom Hne'. unfold voice_incoming.
  rewrite Hsid, Hfrom, (falsy_Some sid Hne), (falsy_Some from Hne'). simpl.
  unfold async_route, mbind, Async_bind, mret, Async_ret.
  rewrite initializeCall_effect. simpl. split; [reflexivity|].
  split; [|reflexivity].
  unfold session_of. simpl. rewrite lookup_insert_eq. simpl.
  by rewrite lookup_app_r, Nat.sub_diag by lia.
Qed.

(** X12: an incoming-call request without a body, or lacking the call id
    or the caller (missing or empty), is refused with status 400 and
    creates nothing. *)
Theorem voice_incoming_rejects_incomplete req w :
  (req = None ∨ ∃ body, req = Some body
                        ∧ (falsy (CallSid body) = true ∨ falsy (From body) = true)) →
  ∃ text, voice_incoming req w = (Status400 text, w).
Proof.
  intros [->|(body & -> & H)]; [by eexists|].
  unfold voice_incoming.
  assert (falsy (CallSid body) || falsy (From body) = true) as ->
    by (apply orb_true_iff; exact H).
  by eexists.
Qed.

Section Speech.

Variable chat_create : nat → list ChatMessage → option string.

(** X13: the confidence test only rejects numbers below one half.  A speech
    event with a text and with no confidence at all, with one that is not a
    number, or with one of at least one half goes on to the response
    generator, and the caller hears what it returns. *)
Theorem unrated_speech_is_answered body w sid text :
  CallSid body = Some sid → sid ≠ "" →
  SpeechResult body = Some text → text ≠ "" →
  (Confidence body = ConfidenceMissing ∨ Confidence body = ConfidenceNaN
   ∨ ∃ q, Confidence body = ConfidenceNumber q ∧ (1 # 2 <= q)%Q) →
  ∃ r, generateResponse chat_create sid text 0 w
       = (Returned r, snd (generateResponse chat_create sid text 0 w))
    ∧ voice_process chat_create (Some body) w
      = (Reply r, snd (generateResponse chat_create sid text 0 w)).
Proof.
  intros Hsid Hne Htext Hne' Hconf. unfold voice_process.
  rewrite Hsid, Htext, (falsy_Some sid Hne), (falsy_Some text Hne').
  assert (below_threshold (Confidence body) = false) as ->.
  { destruct Hconf as [->|[->|(q & -> & Hq)]]; try reflexivity.
    simpl. apply negb_false_iff. by apply Qle_bool_iff. }
  simpl. unfold try_catch, mbind, Async_bind, mret, Async_ret.
  destruct (generateResponse_returns chat_create sid text 0 w) as [r Hr].
  destruct (generateResponse chat_create sid text 0 w) as [o w'].
  simpl in Hr. subst o. by exists r.
Qed.

(** ** The store invariant is kept *)

Lemma initializeCall_inv c from lang w :
  store_inv w → store_inv (snd (initializeCall c from lang w)).
Proof.
  intros Hinv id l. rewrite initializeCall_effect. simpl.
  intros [[<- <-]|[Hne Hid]]%lookup_insert_Some.
  - eexists. rewrite lookup_app_r, Nat.sub_diag by lia. simpl. eauto.
  - destruct (Hinv id l Hid) as (s & Hl & Hs).
    exists s. split; [|exact Hs]. by apply lookup_app_l_Some.
Qed.

Lemma endCall_inv c w : store_inv w → store_inv (snd (endCall c w)).
Proof.
  intros Hinv id l'.
  destruct (activeCalls w !! c) as [l|] eqn:Hc.
  - destruct (Hinv c l Hc) as (s & Hl & Hsid & _).
    rewrite (endCall_effect c w l s Hc Hl). simpl.
    intros [Hne Hid]%lookup_delete_Some.
    destruct (Hinv id l' Hid) as (s' & Hl' & Hs').
    exists s'. split; [|exact Hs'].
    rewrite list_lookup_insert_ne; [done|].
    intros <-. destruct Hs' as (Hsid' & _). congruence.
  - rewrite (endCall_absent c w Hc). apply Hinv.
Qed.

Lemma generateResponse_inv c m w :
  store_inv w → store_inv (snd (generateResponse chat_create c m 0 w)).
Proof.
  intros Hinv id l'.
  destruct (activeCalls w !! c) as [l|] eqn:Hc.
  - destruct (Hinv c l Hc) as (s & Hl & Hsid & _).
    destruct (generateResponse_heap chat_create c m 3 0 w l s eq_refl Hc Hl)
      as [added Hh].
    destruct (generateResponse_frame chat_create c m 0 w) as (Hc' & _ & _).
    rewrite Hc', Hh. intros Hid.
    destruct (Hinv id l' Hid) as (s' & Hl' & Hs').
    destruct (decide (l = l')) as [<-|Hne].
    + exists (extend_history added s).
      rewrite list_lookup_insert_eq by (by eapply lookup_lt_Some).
      assert (s' = s) as -> by congruence. done.
    + exists s'. by rewrite list_lookup_insert_ne.
  - destruct (unknown_call_id chat_create c m w Hc) as [-> _]. apply Hinv.
Qed.

(** X14: the three webhooks keep the store sound.  If every id of the
    store leads to an active, unended session object carrying that id, the
    same holds after an incoming-call, a speech or a status request,
    whatever the request and the provider. *)
Theorem webhooks_keep_store_inv req w :
  store_inv w →
  store_inv (snd (voice_incoming req w))
  ∧ store_inv (snd (voice_process chat_create req w))
  ∧ store_inv (snd (voice_status req w)).
Proof.
  intros Hinv. destruct req as [body|]; [|done].
  split; [|split].
  - unfold voice_incoming.
    destruct (falsy (CallSid body) || falsy (From body)); [done|].
    unfold async_route, mbind, Async_bind, mret, Async_ret.
    pose proof (initializeCall_inv (default "" (CallSid body))
                  (default "" (From body)) None w Hinv) as H.
    by destruct (initializeCall _ _ _ w) as [[?|?] ?].
  - unfold voice_process. destruct (falsy (CallSid body)); [done|].
    unfold try_catch.
    destruct (falsy (SpeechResult body) || below_threshold (Confidence body)); [done|].
    unfold mbind, Async_bind, mret, Async_ret.
    pose proof (generateResponse_inv (default "" (CallSid body))
                  (default "" (SpeechResult body)) w Hinv) as H.
    by destruct (generateResponse _ _ _ _ w) as [[?|?] ?].
  - unfold voice_status. destruct (falsy (CallSid body)); [done|].
    unfold async_route, mbind, Async_bind, mret, Async_ret.
    destruct (ends_call (CallStatus body)); [|done].
    pose proof (endCall_inv (default "" (CallSid body)) w Hinv) as H.
    by destruct (endCall _ w) as [[?|?] ?].
Qed.

End Speech.

(** * Properties of the adapters, of start-up and of the outbound call *)

Lemma supported_entries lang p :
  supportedLanguages !! lang = Some p →
  (lang, p) ∈
    [ ("en", {| name := "English"; voice := "alloy"; whisperLang := "en" |});
      ("es", {| name := "Spanish"; voice := "nova"; whisperLang := "es" |});
      ("fr", {| name := "French"; voice := "shimmer"; whisperLang := "fr" |});
      ("de", {| name := "German"; voice := "echo"; whisperLang := "de" |});
      ("it", {| name := "Italian"; voice := "fable"; whisperLang := "it" |});
      ("pt", {| name := "Portuguese"; voice := "onyx"; whisperLang := "pt" |}) ].
Proof. intros H. by apply elem_of_list_to_map_2 in H. Qed.

(** X15: whatever language string the adapters are given, recognition is
    asked for a code of the table and synthesis for a voice of the table:
    the entry of the string itself when it has one, English and its voice
    otherwise (also for the names [Object.prototype] lends the table). *)
Theorem adapters_fall_back_to_english lang :
  match supportedLanguages !! lang with
  | Some p => transcribe_language lang = lang ∧ speech_voice lang = voice p
  | None => transcribe_language lang = "en" ∧ speech_voice lang = "alloy"
  end
  ∧ is_Some (supportedLanguages !! transcribe_language lang)
  ∧ ∃ key p, supportedLanguages !! key = Some p ∧ speech_voice lang = voice p.
Proof.
  unfold transcribe_language, speech_voice, get_property.
  destruct (supportedLanguages !! lang) as [p|] eqn:Hp.
  - pose proof (supported_entries _ _ Hp) as Hin. set_unfold in Hin.
    destruct Hin as [Hin|[Hin|[Hin|[Hin|[Hin|[Hin|[]]]]]]];
      injection Hin as -> ->;
      (split; [by split|]); (split; [by eexists|]);
      eexists _, _; (split; [exact Hp|reflexivity]).
  - assert (is_Some (supportedLanguages !! "en")) as Hen by (by eexists).
    assert (∃ key p, supportedLanguages !! key = Some p ∧ "alloy" = voice p) as Hv.
    { exists "en". eexists. split; reflexivity. }
    repeat case_bool_decide; by repeat split.
Qed.




Section OutboundCalls.

Variable calls_create : TwilioCall → string * string + string.
Variable TWILIO_NUMBER : string.
Variable NGROK_URL : option string.

Lemma baseUrl_choice req :
  baseUrl NGROK_URL req =
  if falsy (webhookUrl req)
  then if falsy NGROK_URL
       then protocol req +:+ "://" +:+ default "undefined" (host req)
       else default "" NGROK_URL
  else default "" (webhookUrl req).
Proof.
  unfold baseUrl, or_else.
  destruct (webhookUrl req) as [u|]; simpl.
  - case_bool_decide; simpl; [|by case_bool_decide].
    destruct NGROK_URL as [v|]; simpl; [|done].
    by repeat (case_bool_decide; simpl).
  - destruct NGROK_URL as [v|]; simpl; [|done].
    by repeat (case_bool_decide; simpl).
Qed.

(** X17: the outbound-call handler decides in three steps.  Without a
    phone number it refuses and contacts nobody.  Otherwise the callback
    address is the request's [webhookUrl], else [NGROK_URL], else the
    protocol and host of the request; if that address contains [localhost]
    and the request gave no [webhookUrl], it refuses and contacts nobody.
    In every other case it places exactly one call, to the requested
    number from the configured one, with the callbacks [/voice/incoming]
    and [/voice/status] under that address, and answers with the
    provider's id and status, or with its message when the provider
    refuses. *)
Theorem api_call_callbacks req placed :
  let out := api_call calls_create TWILIO_NUMBER NGROK_URL req placed in
  let base :=
    if falsy (webhookUrl req)
    then if falsy NGROK_URL
         then protocol req +:+ "://" +:+ default "undefined" (host req)
         else default "" NGROK_URL
    else default "" (webhookUrl req) in
  let call :=
    {| call_to := default "" (phoneNumber req); call_from := TWILIO_NUMBER;
       call_url := base +:+ "/voice/incoming";
       call_statusCallback := base +:+ "/voice/status";
       call_statusCallbackMethod := "POST" |} in
  (falsy (phoneNumber req) = true → out = (PhoneNumberRequired, placed))
  ∧ (falsy (phoneNumber req) = false →
     includes "localhost" base = true → falsy (webhookUrl req) = true →
     out = (WebhookUrlRequired, placed))
  ∧ (falsy (phoneNumber req) = false →
     includes "localhost" base = false ∨ falsy (webhookUrl req) = false →
     snd out = placed ++ [call]
     ∧ fst out = match calls_create call with
                 | inl (sid, status) => CallInitiatedOk sid status base
                 | inr message => CallFailed message
                 end).
Proof.
  intros out base call. subst out call. unfold api_call.
  rewrite baseUrl_choice. fold base.
  split; [|split].
  - by intros ->.
  - by intros -> -> ->.
  - intros -> Hgo.
    assert (includes "localhost" base && falsy (webhookUrl req) = false) as ->
      by (apply andb_false_iff; exact Hgo).
    by destruct (calls_create _) as [[sid st]|message].
Qed.

End OutboundCalls.

(** X18: the active-call count of the health report follows the store:
    initialising a call id the store does not hold raises it by one,
    initialising one it holds leaves it, ending a held one lowers it by
    one, and ending an unknown one leaves it. *)
Theorem health_counts_sessions c from lang w :
  wf_world w →
  health_activeCalls (health (snd (initializeCall c from lang w)))
  = (if activeCalls w !! c is Some _ then health_activeCalls (health w)
     else S (health_activeCalls (health w)))
  ∧ health_activeCalls (health (snd (endCall c w)))
    = (if activeCalls w !! c is Some _ then pred (health_activeCalls (health w))
       else health_activeCalls (health w)).
Proof.
  intros Hwf. unfold health. rewrite initializeCall_effect. simpl.
  destruct (activeCalls w !! c) as [l|] eqn:Hc.
  - destruct (lookup_lt_is_Some_2 (heap w) l (Hwf c l Hc)) as [s Hl].
    rewrite (endCall_effect c w l s Hc Hl). simpl.
    rewrite map_size_insert_Some by eauto.
    rewrite map_size_delete_Some by eauto. done.
  - rewrite (endCall_absent c w Hc).
    by rewrite map_size_insert_None.
Qed.

Lemma has_slash_app a b : has_slash (a +:+ b) = has_slash a || has_slash b.
Proof. induction a as [|x a IH]; simpl; [done|]. by rewrite IH, orb_assoc. Qed.

Lemma dirname_join dir name :
  has_slash name = false → dirname (path_join dir name) = dir.
Proof.
  intros Hname. unfold path_join. induction dir as [|x dir IH]; simpl.
  - change ("" +:+ name) with name. by rewrite Hname.
  - rewrite has_slash_app. simpl. rewrite orb_true_r. by rewrite IH.
Qed.

Lemma pretty_N_go_no_slash x s :
  has_slash s = false → has_slash (pretty_N_go x s) = false.
Proof.
  revert s. induction (N.lt_wf_0 x) as [x _ IH]; intros s Hs.
  assert (x = 0 ∨ 0 < x)%N as [->|Hpos] by lia.
  - by rewrite pretty_N_go_0.
  - rewrite pretty_N_go_step by done. apply IH.
    { by apply N.div_lt. }
    simpl. rewrite Hs. unfold pretty_N_char. by repeat case_match.
Qed.

Lemma pretty_Z_no_slash (t : Z) : has_slash (pretty t) = false.
Proof.
  assert (∀ n : N, has_slash (pretty n) = false) as HN.
  { intros n. unfold pretty, pretty_N. case_decide; [done|].
    by apply pretty_N_go_no_slash. }
  destruct t as [|p|p]; unfold pretty, pretty_Z; [done|apply HN|].
  rewrite has_slash_app. simpl. apply HN.
Qed.

Lemma temp_name_plain (t : Z) : has_slash ("audio_" +:+ pretty t +:+ ".wav") = false.
Proof. by rewrite !has_slash_app, pretty_Z_no_slash. Qed.

Lemma temp_file_not_temp name : path_join "temp" name ≠ "temp".
Proof. unfold path_join. simpl. discriminate. Qed.


Section Recognition.

Variable transcriptions_create : list Z → string → option string.

(** X19: when recognition answers, [transcribeAudio] returns the text and
    cleans up after itself: the temporary directory exists, the temporary
    file is gone, and no other file has changed.  (Nothing named [temp]
    may be a file, and the temporary path may not be a directory.) *)
Theorem transcribeAudio_cleans_up audioBuffer language Date_now d text :
  let tempFile := path_join "temp" ("audio_" +:+ pretty Date_now +:+ ".wav") in
  files d !! "temp" = None →
  tempFile ∉ dirs d →
  transcriptions_create audioBuffer (transcribe_language (default "en" language))
  = Some text →
  transcribeAudio transcriptions_create audioBuffer language Date_now d
  = (Some text, {| dirs := {[ "temp" ]} ∪ dirs d; files := delete tempFile (files d) |}).
Proof.
  intros tempFile Hfile Hdir Hheard.
  unfold transcribeAudio, or_null, mbind, DiskOp_bind, mret, DiskOp_ret,
    existsSync, mkdirSync, writeFileSync, read_stream, await, unlinkSync.
  fold tempFile.
  assert (dirname tempFile = "temp") as -> by apply dirname_join, temp_name_plain.
  rewrite Hfile. simpl.
  rewrite orb_false_r.
  destruct (bool_decide ("temp" ∈ dirs d)) eqn:Htemp; simpl.
  - apply bool_decide_eq_true in Htemp.
    rewrite (bool_decide_eq_true_2 _ Htemp), (bool_decide_eq_false_2 _ Hdir). simpl.
    rewrite lookup_insert_eq, Hheard.
    rewrite (bool_decide_eq_true_2 (is_Some (Some audioBuffer))) by eauto.
    rewrite delete_insert_eq. do 2 f_equal. set_solver.
  - rewrite Htemp, Hfile. simpl.
    rewrite (bool_decide_eq_true_2 ("temp" ∈ {["temp"]} ∪ dirs d)) by set_solver.
    rewrite (bool_decide_eq_false_2 (tempFile ∈ {["temp"]} ∪ dirs d)).
    2:{ pose proof (temp_file_not_temp ("audio_" +:+ pretty Date_now +:+ ".wav"))
          as Hneq.
        set_solver. }
    simpl. rewrite lookup_insert_eq, Hheard.
    rewrite (bool_decide_eq_true_2 (is_Some (Some audioBuffer))) by eauto.
    by rewrite delete_insert_eq.
Qed.

(** X20: when recognition fails, [transcribeAudio] returns nothing and the
    temporary file stays on the disk with the audio in it: the removal
    comes after the request and is skipped by the [catch]. *)
Theorem transcribeAudio_failure_leaves_file audioBuffer language Date_now d :
  let tempFile := path_join "temp" ("audio_" +:+ pretty Date_now +:+ ".wav") in
  files d !! "temp" = None →
  tempFile ∉ dirs d →
  transcriptions_create audioBuffer (transcribe_language (default "en" language))
  = None →
  fst (transcribeAudio transcriptions_create audioBuffer language Date_now d) = None
  ∧ files (snd (transcribeAudio transcriptions_create audioBuffer language Date_now d))
    = <[tempFile := audioBuffer]> (files d).
Proof.
  intros tempFile Hfile Hdir Hdeaf.
  unfold transcribeAudio, or_null, mbind, DiskOp_bind, mret, DiskOp_ret,
    existsSync, mkdirSync, writeFileSync, read_stream, await, unlinkSync.
  fold tempFile.
  assert (dirname tempFile = "temp") as -> by apply dirname_join, temp_name_plain.
  rewrite Hfile. simpl.
  rewrite orb_false_r.
  destruct (bool_decide ("temp" ∈ dirs d)) eqn:Htemp; simpl.
  - apply bool_decide_eq_true in Htemp.
    rewrite (bool_decide_eq_true_2 _ Htemp), (bool_decide_eq_false_2 _ Hdir). simpl.
    by rewrite lookup_insert_eq, Hdeaf.
  - rewrite Htemp, Hfile. simpl.
    rewrite (bool_decide_eq_true_2 ("temp" ∈ {["temp"]} ∪ dirs d)) by set_solver.
    rewrite (bool_decide_eq_false_2 (tempFile ∈ {["temp"]} ∪ dirs d)).
    2:{ pose proof (temp_file_not_temp ("audio_" +:+ pretty Date_now +:+ ".wav"))
          as Hneq.
        set_solver. }
    simpl. by rewrite lookup_insert_eq, Hdeaf.
Qed.

End Recognition.

Section Synthesis.

Variable speech_create : string → string → option (list Z).


(** A call id with a [/] in it names a file in a directory that is not
    there: nothing is stored and nothing is returned. *)
Example generateSpeech_slash_in_call_id :
  fst (generateSpeech (speaks [7; 7]) "Sunny." None "a/b" 1700000000000 empty_disk) = None
  ∧ files (snd (generateSpeech (speaks [7; 7]) "Sunny." None "a/b" 1700000000000
                  empty_disk)) = ∅.
Proof. vm_compute. split; reflexivity. Qed.

End Synthesis.

(** * The further properties on concrete calls *)

Lemma wf_empty_world : wf_world empty_world.
Proof. intros id l H. simpl in H. by rewrite lookup_empty in H. Qed.

Lemma wf_one_call : wf_world one_call.
Proof. apply initializeCall_wf, wf_empty_world. Qed.

Lemma store_inv_empty_world : store_inv empty_world.
Proof. intros id l H. simpl in H. by rewrite lookup_empty in H. Qed.

Lemma store_inv_one_turn : store_inv one_turn.
Proof.
  apply generateResponse_inv, initializeCall_inv, store_inv_empty_world.
Qed.

Lemma store_inv_two_calls : store_inv two_calls.
Proof. apply initializeCall_inv, store_inv_one_turn. Qed.

(** [initializeCall_replaces] on a call with an answered turn: the store is
    sound, the id led to object 0, and after the second initialisation it
    leads to object 1, which has no history, while no id leads to object 0
    any more. *)
Lemma initializeCall_replaces_witness :
  store_inv one_turn
  ∧ activeCalls one_turn !! "CA1" = Some 0%nat
  ∧ activeCalls (snd (initializeCall "CA1" "+15551234567" None one_turn)) !! "CA1"
    = Some 1%nat
  ∧ conversationHistory <$>
      session_of (snd (initializeCall "CA1" "+15551234567" None one_turn)) "CA1"
    = Some []
  ∧ ∀ id, activeCalls (snd (initializeCall "CA1" "+15551234567" None one_turn)) !! id
          ≠ Some 0%nat.
Proof.
  destruct (initializeCall_replaces "CA1" "+15551234567" None one_turn)
    as (_ & Hnew & Hsession & _ & _ & Hgone).
  split; [exact store_inv_one_turn|].
  split; [vm_compute; reflexivity|].
  split; [exact Hnew|].
  split; [by rewrite Hsession|].
  apply (Hgone store_inv_one_turn). vm_compute. reflexivity.
Defined.

(** [history_append_only] for a retried turn of a new call. *)
Lemma history_append_only_witness :
  activeCalls one_call !! "CA1" = Some 0%nat
  ∧ heap one_call !! 0%nat = Some new_session
  ∧ (∃ added,
       session_of (snd (generateResponse (fail_then 1 "Sunny.") "CA1" "hello" 0 one_call))
         "CA1" = Some (extend_history added new_session))
  ∧ (∀ l', l' ≠ 0%nat →
       heap (snd (generateResponse (fail_then 1 "Sunny.") "CA1" "hello" 0 one_call)) !! l'
       = heap one_call !! l')
  ∧ activeCalls (snd (generateResponse (fail_then 1 "Sunny.") "CA1" "hello" 0 one_call))
    = activeCalls one_call.
Proof.
  split; [vm_compute; reflexivity|].
  split; [vm_compute; reflexivity|].
  apply (history_append_only (fail_then 1 "Sunny.") "CA1" "hello" 0 one_call 0%nat
           new_session).
  - vm_compute. reflexivity.
  - vm_compute. reflexivity.
Defined.


(** [unsupported_language_skips_provider] for a call created in Klingon,
    with a provider that would answer. *)
Lemma unsupported_language_skips_provider_witness :
  session_of klingon_call "CA1" = Some klingon_session
  ∧ get_property (language klingon_session) = Undefined
  ∧ ∃ w' s',
      generateResponse (fail_then 0 "Sunny.") "CA1" "hello" 0 klingon_call
      = (Returned apology, w')
      ∧ requests w' = requests klingon_call
      ∧ db w' = db klingon_call
      ∧ session_of w' "CA1" = Some s'
      ∧ map to_message (conversationHistory s')
        = map to_message (conversationHistory klingon_session)
          ++ replicate 4 {| msg_role := user; msg_content := "hello" |}.
Proof.
  split; [vm_compute; reflexivity|].
  split; [vm_compute; reflexivity|].
  apply (unsupported_language_skips_provider (fail_then 0 "Sunny.") "CA1" "hello"
           klingon_call klingon_session).
  - vm_compute. reflexivity.
  - vm_compute. reflexivity.
Defined.


(** [speech_after_hangup] for a call ended right after it began. *)
Lemma speech_after_hangup_witness :
  fst (generateResponse (fail_then 0 "Sunny.") "CA1" "hello" 0 (snd (endCall "CA1" one_call)))
  = Returned apology
  ∧ requests (snd (generateResponse (fail_then 0 "Sunny.") "CA1" "hello" 0
                     (snd (endCall "CA1" one_call))))
    = requests one_call
  ∧ activeCalls (snd (generateResponse (fail_then 0 "Sunny.") "CA1" "hello" 0
                        (snd (endCall "CA1" one_call)))) !! "CA1"
    = None
  ∧ heap (snd (generateResponse (fail_then 0 "Sunny.") "CA1" "hello" 0
                 (snd (endCall "CA1" one_call))))
    = heap (snd (endCall "CA1" one_call))
  ∧ sleeps (snd (generateResponse (fail_then 0 "Sunny.") "CA1" "hello" 0
                   (snd (endCall "CA1" one_call))))
    = sleeps one_call ++ [1000; 2000; 4000].
Proof.
  apply (speech_after_hangup (fail_then 0 "Sunny.") "CA1" "hello" one_call 0%nat
           new_session).
  - vm_compute. reflexivity.
  - vm_compute. reflexivity.
Defined.

(** [create_then_end_restores_store] on an empty store. *)
Lemma create_then_end_restores_store_witness :
  activeCalls empty_world !! "CA1" = None
  ∧ fst (endCall "CA1" (snd (initializeCall "CA1" "+15551234567" None empty_world)))
    = Returned tt
  ∧ activeCalls (snd (endCall "CA1"
                        (snd (initializeCall "CA1" "+15551234567" None empty_world))))
    = activeCalls empty_world
  ∧ isActive <$> heap (snd (endCall "CA1"
                         (snd (initializeCall "CA1" "+15551234567" None empty_world))))
                   !! length (heap empty_world)
    = Some false
  ∧ endTime <$> heap (snd (endCall "CA1"
                        (snd (initializeCall "CA1" "+15551234567" None empty_world))))
                  !! length (heap empty_world)
    = Some (Some (now empty_world))
  ∧ requests (snd (endCall "CA1"
                     (snd (initializeCall "CA1" "+15551234567" None empty_world))))
    = requests empty_world.
Proof.
  split; [reflexivity|].
  apply (create_then_end_restores_store "CA1" "+15551234567" None empty_world).
  reflexivity.
Defined.

(** [endCall_logs_once] on a server with a database. *)
Lemma endCall_logs_once_witness :
  db (snd (endCall "CA1" logged_call))
  = Some {| conversations := [];
            call_logs :=
              [{| log_callSid := "CA1"; log_eventType := "call_initiated";
                  log_data := CallInitiated "+15551234567" "en" 0;
                  log_timestamp := 0 |}] ++
              [{| log_callSid := "CA1"; log_eventType := "call_ended";
                  log_data := CallEnded (now logged_call - startTime new_session)
                                (length (conversationHistory new_session));
                  log_timestamp := now logged_call |}] |}.
Proof.
  apply (endCall_logs_once "CA1" logged_call 0%nat new_session
           {| conversations := [];
              call_logs :=
                [{| log_callSid := "CA1"; log_eventType := "call_initiated";
                    log_data := CallInitiated "+15551234567" "en" 0;
                    log_timestamp := 0 |}] |}).
  - vm_compute. reflexivity.
  - vm_compute. reflexivity.
  - vm_compute. reflexivity.
Defined.

(** [voice_status_ignores_unfinished] for a ringing call. *)
Lemma voice_status_ignores_unfinished_witness :
  voice_status (Some (status "CA1" "ringing")) one_call = (Status200, one_call).
Proof.
  apply (voice_status_ignores_unfinished (status "CA1" "ringing") one_call).
  - reflexivity.
  - intros state [= <-]. unfold finished. set_unfold.
    intros [H|[H|[H|[H|[]]]]]; discriminate.
Defined.

(** [voice_status_ends_finished] for a completed call. *)
Lemma voice_status_ends_finished_witness :
  fst (voice_status (Some (status "CA1" "completed")) one_call) = Status200
  ∧ activeCalls (snd (voice_status (Some (status "CA1" "completed")) one_call))
    = delete "CA1" (activeCalls one_call)
  ∧ requests (snd (voice_status (Some (status "CA1" "completed")) one_call))
    = requests one_call.
Proof.
  apply (voice_status_ends_finished (status "CA1" "completed") one_call "CA1" "completed").
  - exact wf_one_call.
  - reflexivity.
  - discriminate.
  - reflexivity.
  - unfold finished. set_solver.
Defined.

(** [voice_incoming_creates_english_session] for a first call. *)
Lemma voice_incoming_creates_english_session_witness :
  fst (voice_incoming (Some (incoming "CA1" "+15551234567")) empty_world) = Greeting
  ∧ session_of (snd (voice_incoming (Some (incoming "CA1" "+15551234567")) empty_world))
      "CA1"
    = Some {| callSid := "CA1"; fromNumber := "+15551234567"; language := "en";
              startTime := now empty_world; conversationHistory := [];
              audioBuffer := []; isActive := true; contextWindow := [];
              endTime := None |}
  ∧ name_of (get_property "en") = Some "English".
Proof.
  apply (voice_incoming_creates_english_session (incoming "CA1" "+15551234567")
           empty_world "CA1" "+15551234567").
  - reflexivity.
  - discriminate.
  - reflexivity.
  - discriminate.
Defined.

(** [voice_incoming_rejects_incomplete] for a request without a caller. *)
Lemma voice_incoming_rejects_incomplete_witness :
  ∃ text, voice_incoming (Some (status "CA1" "ringing")) empty_world
          = (Status400 text, empty_world).
Proof.
  apply (voice_incoming_rejects_incomplete (Some (status "CA1" "ringing")) empty_world).
  right. eexists. split; [reflexivity|]. right. reflexivity.
Defined.

(** [unrated_speech_is_answered] for a speech event without confidence. *)
Lemma unrated_speech_is_answered_witness :
  ∃ r, generateResponse (fail_then 0 "Sunny.") "CA1" "hello" 0 one_call
       = (Returned r, snd (generateResponse (fail_then 0 "Sunny.") "CA1" "hello" 0 one_call))
    ∧ voice_process (fail_then 0 "Sunny.")
        (Some (speech "CA1" "hello" ConfidenceMissing)) one_call
      = (Reply r, snd (generateResponse (fail_then 0 "Sunny.") "CA1" "hello" 0 one_call)).
Proof.
  apply (unrated_speech_is_answered (fail_then 0 "Sunny.")
           (speech "CA1" "hello" ConfidenceMissing) one_call "CA1" "hello").
  - reflexivity.
  - discriminate.
  - reflexivity.
  - discriminate.
  - left. reflexivity.
Defined.

(** [webhooks_keep_store_inv] on a store with two calls, for a request
    that makes each webhook act on the first of them: the incoming-call
    webhook replaces its session, the speech webhook adds a turn to it, the
    status webhook ends it.  The second call is there throughout. *)
Lemma webhooks_keep_store_inv_witness :
  store_inv two_calls
  ∧ (activeCalls two_calls !! "CA1" = Some 0%nat
     ∧ activeCalls two_calls !! "CA2" = Some 1%nat)
  ∧ (activeCalls (snd (voice_incoming (Some (full_request "CA1")) two_calls)) !! "CA1"
     = Some 2%nat
     ∧ length ∘ conversationHistory <$>
         session_of (snd (voice_process (fail_then 0 "Rain.")
                            (Some (full_request "CA1")) two_calls)) "CA1"
       = Some 4%nat
     ∧ activeCalls (snd (voice_status (Some (full_request "CA1")) two_calls)) !! "CA1"
       = None
     ∧ activeCalls (snd (voice_status (Some (full_request "CA1")) two_calls)) !! "CA2"
       = Some 1%nat)
  ∧ store_inv (snd (voice_incoming (Some (full_request "CA1")) two_calls))
  ∧ store_inv (snd (voice_process (fail_then 0 "Rain.")
                      (Some (full_request "CA1")) two_calls))
  ∧ store_inv (snd (voice_status (Some (full_request "CA1")) two_calls)).
Proof.
  split; [exact store_inv_two_calls|].
  split; [vm_compute; split; reflexivity|].
  split; [vm_compute; repeat split; reflexivity|].
  apply (webhooks_keep_store_inv (fail_then 0 "Rain.")
           (Some (full_request "CA1")) two_calls).
  exact store_inv_two_calls.
Defined.

(** [health_counts_sessions] for a stored id (the count stays at one
    when it is initialised again and falls to zero when it is ended) and
    for an unknown id (the count rises from one to two when it is
    initialised and stays when it is ended). *)
Lemma health_counts_sessions_witness :
  wf_world one_call
  ∧ health_activeCalls (health one_call) = 1%nat
  ∧ (health_activeCalls (health (snd (initializeCall "CA1" "+15551234567" None one_call)))
     = 1%nat
     ∧ health_activeCalls (health (snd (endCall "CA1" one_call))) = 0%nat)
  ∧ (health_activeCalls (health (snd (initializeCall "CA2" "+15557654321" None one_call)))
     = 2%nat
     ∧ health_activeCalls (health (snd (endCall "CA2" one_call))) = 1%nat).
Proof.
  split; [exact wf_one_call|].
  split; [vm_compute; reflexivity|].
  split.
  - exact (health_counts_sessions "CA1" "+15551234567" None one_call wf_one_call).
  - exact (health_counts_sessions "CA2" "+15557654321" None one_call wf_one_call).
Defined.

(** [transcribeAudio_cleans_up] on an empty disk. *)
Lemma transcribeAudio_cleans_up_witness :
  transcribeAudio (hears "hello") [1; 2; 3] None 1700000000000 empty_disk
  = (Some "hello",
     {| dirs := {[ "temp" ]} ∪ dirs empty_disk;
        files := delete (path_join "temp" ("audio_" +:+ pretty 1700000000000 +:+ ".wav"))
                   (files empty_disk) |}).
Proof.
  apply (transcribeAudio_cleans_up (hears "hello") [1; 2; 3] None 1700000000000
           empty_disk "hello").
  - reflexivity.
  - simpl. set_solver.
  - reflexivity.
Defined.

(** [transcribeAudio_failure_leaves_file] on an empty disk. *)
Lemma transcribeAudio_failure_leaves_file_witness :
  fst (transcribeAudio deaf [1; 2; 3] None 1700000000000 empty_disk) = None
  ∧ files (snd (transcribeAudio deaf [1; 2; 3] None 1700000000000 empty_disk))
    = <[path_join "temp" ("audio_" +:+ pretty 1700000000000 +:+ ".wav") := [1; 2; 3]]>
        (files empty_disk).
Proof.
  apply (transcribeAudio_failure_leaves_file deaf [1; 2; 3] None 1700000000000 empty_disk).
  - reflexivity.
  - simpl. set_solver.
  - reflexivity.
Defined.


(** * Languages *)


